(** * generate_authelia_hash.py: a shallow embedding and its properties

    The script reads one password from the command line, draws a 16-byte
    salt from [os.urandom], derives a key with
    [hashlib.pbkdf2_hmac('sha512', ..., 310000)], and prints the string
    [$pbkdf2-sha512$310000$<salt>$<key>] (unpadded base64 segments) as a
    length line followed by 50-character chunks.

    The file first models the library primitives the script calls
    (SHA-512, HMAC, PBKDF2, base64, UTF-8, the few [str] operations),
    then the script itself in a small state-and-exception monad, and
    finally states and proves the properties. *)

From Stdlib Require Import Strings.Ascii Strings.String Strings.Byte.
From Stdlib Require Import Decimal DecimalZ NArith ZArith Lia Bool List.
Import ListNotations.

(** ** Python values *)

(** [bytes] objects are sequences of octets. *)
Definition bytes := list byte.

(** A [str] is a sequence of Unicode code points. *)
Definition str := list N.

(** Python integers are unbounded. *)
Definition int := Z.

(** The octet holding the low eight bits of [n]. *)
Definition byte_of_N (n : N) : byte :=
  match Byte.of_N (N.land n 255) with
  | Some b => b
  | None => x00
  end.

(** A literal of the source, as a [str]. *)
Definition lit (s : string) : str :=
  map (fun b => Byte.to_N b) (list_byte_of_string s).

(** A bytes literal of the source ([b"..."]). *)
Definition blit (s : string) : bytes := list_byte_of_string s.

(** Hexadecimal rendering of a [bytes] value, as [bytes.hex()] prints it;
    used to state test vectors. *)
Definition hex_digit (n : N) : ascii :=
  ascii_of_N (if (n <? 10)%N then 48 + n else 87 + n).

Fixpoint hex (bs : bytes) : string :=
  match bs with
  | [] => EmptyString
  | b :: bs' =>
      String (hex_digit (Byte.to_N b / 16))
        (String (hex_digit (Byte.to_N b mod 16)) (hex bs'))
  end.

(** ** SHA-512 (FIPS 180-4), the digest behind [hashlib]'s ['sha512'] *)

Module SHA512.
Local Open Scope N_scope.

Definition word := N.

(** Words are 64 bits wide; [wrap] keeps the low 64 bits. *)
Definition mask64 : N := 0xffffffffffffffff.
Definition wrap (x : N) : word := N.land x mask64.

Definition add64 (x y : word) : word := wrap (x + y).
Definition rotr (n : N) (x : word) : word :=
  N.lor (N.shiftr x n) (wrap (N.shiftl x (64 - n))).
Definition shr (n : N) (x : word) : word := N.shiftr x n.

Definition Ch (x y z : word) : word :=
  N.lxor (N.land x y) (N.land (N.lnot x 64) z).
Definition Maj (x y z : word) : word :=
  N.lxor (N.lxor (N.land x y) (N.land x z)) (N.land y z).
Definition Sigma0 (x : word) : word :=
  N.lxor (N.lxor (rotr 28 x) (rotr 34 x)) (rotr 39 x).
Definition Sigma1 (x : word) : word :=
  N.lxor (N.lxor (rotr 14 x) (rotr 18 x)) (rotr 41 x).
Definition sigma0 (x : word) : word :=
  N.lxor (N.lxor (rotr 1 x) (rotr 8 x)) (shr 7 x).
Definition sigma1 (x : word) : word :=
  N.lxor (N.lxor (rotr 19 x) (rotr 61 x)) (shr 6 x).

Definition K : list word :=
  [ 0x428a2f98d728ae22; 0x7137449123ef65cd; 0xb5c0fbcfec4d3b2f; 0xe9b5dba58189dbbc;
    0x3956c25bf348b538; 0x59f111f1b605d019; 0x923f82a4af194f9b; 0xab1c5ed5da6d8118;
    0xd807aa98a3030242; 0x12835b0145706fbe; 0x243185be4ee4b28c; 0x550c7dc3d5ffb4e2;
    0x72be5d74f27b896f; 0x80deb1fe3b1696b1; 0x9bdc06a725c71235; 0xc19bf174cf692694;
    0xe49b69c19ef14ad2; 0xefbe4786384f25e3; 0x0fc19dc68b8cd5b5; 0x240ca1cc77ac9c65;
    0x2de92c6f592b0275; 0x4a7484aa6ea6e483; 0x5cb0a9dcbd41fbd4; 0x76f988da831153b5;
    0x983e5152ee66dfab; 0xa831c66d2db43210; 0xb00327c898fb213f; 0xbf597fc7beef0ee4;
    0xc6e00bf33da88fc2; 0xd5a79147930aa725; 0x06ca6351e003826f; 0x142929670a0e6e70;
    0x27b70a8546d22ffc; 0x2e1b21385c26c926; 0x4d2c6dfc5ac42aed; 0x53380d139d95b3df;
    0x650a73548baf63de; 0x766a0abb3c77b2a8; 0x81c2c92e47edaee6; 0x92722c851482353b;
    0xa2bfe8a14cf10364; 0xa81a664bbc423001; 0xc24b8b70d0f89791; 0xc76c51a30654be30;
    0xd192e819d6ef5218; 0xd69906245565a910; 0xf40e35855771202a; 0x106aa07032bbd1b8;
    0x19a4c116b8d2d0c8; 0x1e376c085141ab53; 0x2748774cdf8eeb99; 0x34b0bcb5e19b48a8;
    0x391c0cb3c5c95a63; 0x4ed8aa4ae3418acb; 0x5b9cca4f7763e373; 0x682e6ff3d6b2b8a3;
    0x748f82ee5defb2fc; 0x78a5636f43172f60; 0x84c87814a1f0ab72; 0x8cc702081a6439ec;
    0x90befffa23631e28; 0xa4506cebde82bde9; 0xbef9a3f7b2c67915; 0xc67178f2e372532b;
    0xca273eceea26619c; 0xd186b8c721c0c207; 0xeada7dd6cde0eb1e; 0xf57d4f7fee6ed178;
    0x06f067aa72176fba; 0x0a637dc5a2c898a6; 0x113f9804bef90dae; 0x1b710b35131c471b;
    0x28db77f523047d84; 0x32caab7b40c72493; 0x3c9ebe0a15c9bebc; 0x431d67c49c100d4c;
    0x4cc5d4becb3e42b6; 0x597f299cfc657e2a; 0x5fcb6fab3ad6faec; 0x6c44198c4a475817 ].

(** The eight working variables, and the hash value between blocks. *)
Record state := State
  { va : word; vb : word; vc : word; vd : word;
    ve : word; vf : word; vg : word; vh : word }.

Definition H0 : state :=
  State 0x6a09e667f3bcc908 0xbb67ae8584caa73b 0x3c6ef372fe94f82b 0xa54ff53a5f1d36f1
        0x510e527fade682d1 0x9b05688c2b3e6c1f 0x1f83d9abfb41bd6b 0x5be0cd19137e2179.

(** Padding: a one bit, zero bits up to 896 modulo 1024, then the bit
    length of the message as a 128-bit big-endian number. *)
Definition be_bytes (width : nat) (x : N) : bytes :=
  map (fun i => byte_of_N (N.shiftr x (8 * N.of_nat (width - 1 - i))))
      (seq 0 width).

Definition pad (msg : bytes) : bytes :=
  let len := N.of_nat (length msg) in
  let zeros := (128 - (len + 17) mod 128) mod 128 in
  msg ++ x80 :: repeat x00 (N.to_nat zeros) ++ be_bytes 16 (8 * len).

(** Big-endian 64-bit words of a byte sequence, eight octets a word. *)
Definition be_word (bs : bytes) : word :=
  fold_left (fun acc b => acc * 256 + Byte.to_N b) bs 0.

Fixpoint words (n : nat) (bs : bytes) : list word :=
  match n with
  | O => []
  | S n' => be_word (firstn 8 bs) :: words n' (skipn 8 bs)
  end.

(** Message schedule: [window] holds the sixteen most recent words,
    oldest first. *)
Fixpoint extend (n : nat) (window : list word) : list word :=
  match n with
  | O => []
  | S n' =>
      let wt := add64 (add64 (add64 (sigma1 (nth 14 window 0)) (nth 9 window 0))
                             (sigma0 (nth 1 window 0)))
                      (nth 0 window 0) in
      wt :: extend n' (tl window ++ [wt])
  end.

Definition schedule (block : list word) : list word :=
  block ++ extend 64 block.

Definition round (s : state) (kw : word * word) : state :=
  let (k, w) := kw in
  let t1 := add64 (add64 (add64 (add64 (vh s) (Sigma1 (ve s)))
                                (Ch (ve s) (vf s) (vg s))) k) w in
  let t2 := add64 (Sigma0 (va s)) (Maj (va s) (vb s) (vc s)) in
  State (add64 t1 t2) (va s) (vb s) (vc s)
        (add64 (vd s) t1) (ve s) (vf s) (vg s).

Definition compress (h : state) (block : list word) : state :=
  let s := fold_left round (combine K (schedule block)) h in
  State (add64 (va h) (va s)) (add64 (vb h) (vb s))
        (add64 (vc h) (vc s)) (add64 (vd h) (vd s))
        (add64 (ve h) (ve s)) (add64 (vf h) (vf s))
        (add64 (vg h) (vg s)) (add64 (vh h) (vh s)).

Fixpoint blocks (n : nat) (h : state) (bs : bytes) : state :=
  match n with
  | O => h
  | S n' => blocks n' (compress h (words 16 (firstn 128 bs))) (skipn 128 bs)
  end.

Definition output (h : state) : bytes :=
  be_bytes 8 (va h) ++ be_bytes 8 (vb h) ++ be_bytes 8 (vc h) ++
  be_bytes 8 (vd h) ++ be_bytes 8 (ve h) ++ be_bytes 8 (vf h) ++
  be_bytes 8 (vg h) ++ be_bytes 8 (vh h).

Definition digest (msg : bytes) : bytes :=
  let m := pad msg in
  output (blocks (length m / 128) H0 m).

Definition digest_size : nat := 64.
Definition block_size : nat := 128.

End SHA512.

(** ** HMAC (RFC 2104) over SHA-512 *)

Module HMAC.

Definition xor_byte (c : N) (b : byte) : byte :=
  byte_of_N (N.lxor c (Byte.to_N b)).

Definition block_key (key : bytes) : bytes :=
  let k := if (SHA512.block_size <? length key)%nat
           then SHA512.digest key else key in
  k ++ repeat x00 (SHA512.block_size - length k).

Definition hmac_sha512 (key msg : bytes) : bytes :=
  let k := block_key key in
  SHA512.digest (map (xor_byte 0x5c) k ++
                 SHA512.digest (map (xor_byte 0x36) k ++ msg)).

End HMAC.

(** ** PBKDF2 (RFC 8018, section 5.2) *)

Module PBKDF2.

Definition xor_bytes (a b : bytes) : bytes :=
  map (fun p => byte_of_N (N.lxor (Byte.to_N (fst p)) (Byte.to_N (snd p))))
      (combine a b).

Section WithPRF.
Variable prf : bytes -> bytes -> bytes.
Variable hLen : nat.

(** One more application of the pseudorandom function: [(U_j, T)]
    becomes [(U_j+1, T xor U_j+1)]. *)
Definition step (password : bytes) (ut : bytes * bytes) : bytes * bytes :=
  let u := prf password (fst ut) in (u, xor_bytes (snd ut) u).

(** [F (P, S, c, i) = U_1 xor U_2 xor ... xor U_c]. *)
Definition F (password salt : bytes) (c : N) (i : N) : bytes :=
  let u1 := prf password (salt ++ SHA512.be_bytes 4 i) in
  snd (N.iter (c - 1) (step password) (u1, u1)).

(** [DK = T_1 || T_2 || ... || T_l], cut to [dkLen] octets. *)
Definition pbkdf2 (password salt : bytes) (c : N) (dkLen : nat) : bytes :=
  let l := ((dkLen + hLen - 1) / hLen)%nat in
  firstn dkLen
    (concat (map (fun i => F password salt c (N.of_nat i)) (seq 1 l))).
End WithPRF.

Definition pbkdf2_hmac_sha512 : bytes -> bytes -> N -> nat -> bytes :=
  pbkdf2 HMAC.hmac_sha512 SHA512.digest_size.

End PBKDF2.

(** ** Base64 (RFC 4648, section 4), as [base64.b64encode] *)

Module Base64.
Local Open Scope N_scope.

Definition alphabet : bytes :=
  blit "ABCDEFGHIJKLMNOPQRSTUVWXYZabcdefghijklmnopqrstuvwxyz0123456789+/".

(** The character for a 6-bit value. *)
Definition char (i : N) : byte := nth (N.to_nat i) alphabet x00.

Definition pad_char : byte := "="%byte.

(** Three octets give four characters; a final group of one or two
    octets gives two or three characters and is filled up with ['=']. *)
Fixpoint b64encode (s : bytes) : bytes :=
  match s with
  | [] => []
  | [a] =>
      let a := Byte.to_N a in
      [char (a / 4); char (a mod 4 * 16); pad_char; pad_char]
  | [a; b] =>
      let a := Byte.to_N a in
      let b := Byte.to_N b in
      [char (a / 4); char (a mod 4 * 16 + b / 16); char (b mod 16 * 4);
       pad_char]
  | a :: b :: c :: rest =>
      let a := Byte.to_N a in
      let b := Byte.to_N b in
      let c := Byte.to_N c in
      char (a / 4) :: char (a mod 4 * 16 + b / 16) ::
      char (b mod 16 * 4 + c / 64) :: char (c mod 64) :: b64encode rest
  end.

(** The characters of the encoding that stand for data: [b64encode]
    without its padding. *)
Fixpoint sextets (s : bytes) : bytes :=
  match s with
  | [] => []
  | [a] =>
      let a := Byte.to_N a in
      [char (a / 4); char (a mod 4 * 16)]
  | [a; b] =>
      let a := Byte.to_N a in
      let b := Byte.to_N b in
      [char (a / 4); char (a mod 4 * 16 + b / 16); char (b mod 16 * 4)]
  | a :: b :: c :: rest =>
      let a := Byte.to_N a in
      let b := Byte.to_N b in
      let c := Byte.to_N c in
      char (a / 4) :: char (a mod 4 * 16 + b / 16) ::
      char (b mod 16 * 4 + c / 64) :: char (c mod 64) :: sextets rest
  end.

(** How many ['='] close the encoding of [n] octets. *)
Definition padding (n : nat) : nat := ((3 - n mod 3) mod 3)%nat.

(** Position of a character in the alphabet. *)
Fixpoint index_from (i : N) (l : bytes) (x : byte) : option N :=
  match l with
  | [] => None
  | y :: l' => if Byte.eqb x y then Some i else index_from (i + 1) l' x
  end.

Definition index (x : byte) : option N := index_from 0 alphabet x.

End Base64.

(** ** Exceptions and results *)

Inductive exn : Type :=
| SystemExit (code : int)
| IndexError
| ValueError
| UnicodeEncodeError
| UnicodeDecodeError.

Inductive result (A : Type) : Type :=
| Ok (a : A)
| Raise (e : exn).

Arguments SystemExit code%_Z.
Arguments Ok {A} a.
Arguments Raise {A} e.

Definition rbind {A B} (r : result A) (k : A -> result B) : result B :=
  match r with
  | Ok a => k a
  | Raise e => Raise e
  end.

(** ** UTF-8, the codec of [str.encode()] and [bytes.decode()] *)

Module UTF8.
Local Open Scope N_scope.

(** Code points a [str] can be encoded from: the Unicode scalar values.
    The surrogates U+D800..U+DFFF are refused by the strict codec. *)
Definition scalar (c : N) : bool :=
  (c <? 0xD800) || ((0xDFFF <? c) && (c <? 0x110000)).

Definition cont (x : N) : byte := byte_of_N (0x80 + x mod 64).

Definition encode_point (c : N) : result bytes :=
  if c <? 0x80 then Ok [byte_of_N c]
  else if c <? 0x800 then Ok [byte_of_N (0xC0 + c / 64); cont c]
  else if c <? 0x10000 then
    if (0xD800 <=? c) && (c <=? 0xDFFF) then Raise UnicodeEncodeError
    else Ok [byte_of_N (0xE0 + c / 4096); cont (c / 64); cont c]
  else if c <? 0x110000 then
    Ok [byte_of_N (0xF0 + c / 262144); cont (c / 4096); cont (c / 64); cont c]
  else Raise UnicodeEncodeError.

Fixpoint encode (s : str) : result bytes :=
  match s with
  | [] => Ok []
  | c :: s' =>
      rbind (encode_point c) (fun bs =>
      rbind (encode s') (fun rest => Ok (bs ++ rest)))
  end.

Definition is_cont (b : N) : bool := (0x80 <=? b) && (b <=? 0xBF).
Definition between (lo hi b : N) : bool := (lo <=? b) && (b <=? hi).

(** The strict decoder: shortest forms only, no surrogates, nothing
    above U+10FFFF.  [fuel] bounds the number of code points. *)
Fixpoint decode_from (fuel : nat) (bs : list N) : result str :=
  match fuel with
  | O => match bs with [] => Ok [] | _ => Raise UnicodeDecodeError end
  | S fuel' =>
      match bs with
      | [] => Ok []
      | b0 :: r0 =>
          if b0 <? 0x80 then
            rbind (decode_from fuel' r0) (fun s => Ok (b0 :: s))
          else if between 0xC2 0xDF b0 then
            match r0 with
            | b1 :: r1 =>
                if is_cont b1 then
                  rbind (decode_from fuel' r1) (fun s =>
                  Ok ((b0 - 0xC0) * 64 + (b1 - 0x80) :: s))
                else Raise UnicodeDecodeError
            | _ => Raise UnicodeDecodeError
            end
          else if between 0xE0 0xEF b0 then
            match r0 with
            | b1 :: b2 :: r2 =>
                if between (if b0 =? 0xE0 then 0xA0 else 0x80)
                           (if b0 =? 0xED then 0x9F else 0xBF) b1
                   && is_cont b2 then
                  rbind (decode_from fuel' r2) (fun s =>
                  Ok ((b0 - 0xE0) * 4096 + (b1 - 0x80) * 64 + (b2 - 0x80)
                      :: s))
                else Raise UnicodeDecodeError
            | _ => Raise UnicodeDecodeError
            end
          else if between 0xF0 0xF4 b0 then
            match r0 with
            | b1 :: b2 :: b3 :: r3 =>
                if between (if b0 =? 0xF0 then 0x90 else 0x80)
                           (if b0 =? 0xF4 then 0x8F else 0xBF) b1
                   && is_cont b2 && is_cont b3 then
                  rbind (decode_from fuel' r3) (fun s =>
                  Ok ((b0 - 0xF0) * 262144 + (b1 - 0x80) * 4096
                      + (b2 - 0x80) * 64 + (b3 - 0x80) :: s))
                else Raise UnicodeDecodeError
            | _ => Raise UnicodeDecodeError
            end
          else Raise UnicodeDecodeError
      end
  end.

Definition decode (bs : bytes) : result str :=
  decode_from (length bs) (map Byte.to_N bs).

End UTF8.

(** ** The built-ins the script uses *)

Module Py.
Local Open Scope Z_scope.

(** [len(x)]. *)
Definition len {A} (x : list A) : int := Z.of_nat (length x).

(** [str(n)], which is also what [f"{n}"] inserts for an [int]. *)
Fixpoint uint_str (d : Decimal.uint) : str :=
  match d with
  | Decimal.Nil => []
  | Decimal.D0 d => 48%N :: uint_str d
  | Decimal.D1 d => 49%N :: uint_str d
  | Decimal.D2 d => 50%N :: uint_str d
  | Decimal.D3 d => 51%N :: uint_str d
  | Decimal.D4 d => 52%N :: uint_str d
  | Decimal.D5 d => 53%N :: uint_str d
  | Decimal.D6 d => 54%N :: uint_str d
  | Decimal.D7 d => 55%N :: uint_str d
  | Decimal.D8 d => 56%N :: uint_str d
  | Decimal.D9 d => 57%N :: uint_str d
  end.

Definition str_of_int (n : int) : str :=
  match Z.to_int n with
  | Decimal.Pos d => uint_str d
  | Decimal.Neg d => 45%N :: uint_str d
  end.

(** A slice bound brought into [0 .. len], counting from the end when
    it is negative. *)
Definition clamp (n i : int) : int :=
  if i <? 0 then Z.max 0 (i + n) else Z.min i n.

(** [s[i:j]]. *)
Definition slice {A} (s : list A) (i j : int) : list A :=
  let a := clamp (len s) i in
  let b := clamp (len s) j in
  firstn (Z.to_nat (b - a)) (skipn (Z.to_nat a) s).

(** [l[i]]. *)
Definition getitem {A} (l : list A) (i : int) : result A :=
  let k := if i <? 0 then i + len l else i in
  if (k <? 0) || (len l <=? k) then Raise IndexError
  else match nth_error l (Z.to_nat k) with
       | Some x => Ok x
       | None => Raise IndexError
       end.

(** [list(range(start, stop, step))]; a zero step is a [ValueError]. *)
Definition range_len (start stop step : int) : int :=
  if 0 <? step then
    if start <? stop then (stop - start - 1) / step + 1 else 0
  else
    if stop <? start then (start - stop - 1) / (- step) + 1 else 0.

Definition range (start stop step : int) : result (list int) :=
  if step =? 0 then Raise ValueError
  else Ok (map (fun k => start + Z.of_nat k * step)
               (seq 0 (Z.to_nat (range_len start stop step)))).

(** [s.rstrip(chars)]: drop the longest suffix made of characters
    of [chars]. *)
Fixpoint rstrip (s chars : str) : str :=
  match s with
  | [] => []
  | c :: s' =>
      match rstrip s' chars with
      | [] => if existsb (N.eqb c) chars then [] else [c]
      | r => c :: r
      end
  end.

Arguments str_of_int n%_Z.
Arguments slice {A} s (i j)%_Z.
Arguments getitem {A} l i%_Z.
Arguments range (start stop step)%_Z.

Fixpoint str_eqb (a b : str) : bool :=
  match a, b with
  | [], [] => true
  | x :: a', y :: b' => N.eqb x y && str_eqb a' b'
  | _, _ => false
  end.

End Py.

(** ** The process: standard output, the random source, library calls *)

(** [entropy] is the stream of octets the operating system's random
    source will hand out and [drawn] how many of them have been taken;
    [kdf_calls] counts the calls of [hashlib.pbkdf2_hmac]; [stdout] holds
    the lines printed so far, oldest first. *)
Record world : Type := World
  { stdout : list str;
    entropy : nat -> byte;
    drawn : nat;
    kdf_calls : nat }.

Definition M (A : Type) : Type := world -> result A * world.

Definition ret {A} (a : A) : M A := fun w => (Ok a, w).

Definition bind {A B} (m : M A) (k : A -> M B) : M B :=
  fun w =>
    match m w with
    | (Ok a, w') => k a w'
    | (Raise e, w') => (Raise e, w')
    end.

Definition raise {A} (e : exn) : M A := fun w => (Raise e, w).

Definition lift {A} (r : result A) : M A := fun w => (r, w).

Declare Scope py_scope.
Delimit Scope py_scope with py.
Notation "x <- m ;; k" := (bind m (fun x => k))
  (at level 61, m at next level, right associativity) : py_scope.
Notation "m ;; k" := (bind m (fun _ => k))
  (at level 61, right associativity) : py_scope.
Local Open Scope py_scope.

(** A statement guarded by [if c:] with no [else]. *)
Definition when (c : bool) (body : M unit) : M unit :=
  if c then body else ret tt.

(** [for x in xs: body]. *)
Fixpoint for_each {A} (xs : list A) (body : A -> M unit) : M unit :=
  match xs with
  | [] => ret tt
  | x :: xs' => body x ;; for_each xs' body
  end.

(** [print(s)]. *)
Definition print (s : str) : M unit :=
  fun w => (Ok tt, World (stdout w ++ [s]) (entropy w) (drawn w) (kdf_calls w)).

(** [sys.exit(code)]. *)
Definition sys_exit {A} (code : int) : M A := raise (SystemExit code).

(** The octets the next [os.urandom(n)] returns. *)
Definition next_bytes (w : world) (n : nat) : bytes :=
  map (fun i => entropy w (drawn w + i)) (seq 0 n).

(** [os.urandom(n)]. *)
Definition os_urandom (n : int) : M bytes :=
  fun w =>
    if (n <? 0)%Z then (Raise ValueError, w)
    else (Ok (next_bytes w (Z.to_nat n)),
          World (stdout w) (entropy w) (drawn w + Z.to_nat n) (kdf_calls w)).

(** [hashlib.pbkdf2_hmac(hash_name, password, salt, iterations, dklen)],
    with [dklen = None] meaning the digest size.  Of the digests only
    ['sha512'] is modelled: every other name takes the branch hashlib
    has for a name it does not know. *)
Definition hashlib_pbkdf2_hmac (hash_name : str) (password salt : bytes)
    (iterations : int) (dklen : option int) : M bytes :=
  fun w =>
    let w' := World (stdout w) (entropy w) (drawn w) (S (kdf_calls w)) in
    if negb (Py.str_eqb hash_name (lit "sha512")) then (Raise ValueError, w')
    else if (iterations <? 1)%Z then (Raise ValueError, w')
    else
      match dklen with
      | None =>
          (Ok (PBKDF2.pbkdf2_hmac_sha512 password salt (Z.to_N iterations)
                 SHA512.digest_size), w')
      | Some n =>
          if (n <? 1)%Z then (Raise ValueError, w')
          else (Ok (PBKDF2.pbkdf2_hmac_sha512 password salt
                      (Z.to_N iterations) (Z.to_nat n)), w')
      end.

Arguments os_urandom n%_Z.
Arguments hashlib_pbkdf2_hmac hash_name password salt iterations%_Z dklen.

(** The exit status the interpreter ends with. *)
Definition exit_status {A} (r : result A) : int :=
  match r with
  | Ok _ => 0%Z
  | Raise (SystemExit code) => code
  | Raise _ => 1%Z
  end.

(** ** The script *)

Module Script.
Import Py.
Local Open Scope Z_scope.

Definition usage : str :=
  lit "Usage: python3 generate_authelia_hash.py <password>".

(** Lines 11 to 21: from the salt to [full_hash]. *)
Definition derive (password : str) : M str :=
  salt <- os_urandom 16 ;;
  let iterations := 310000 in
  let digest := lit "sha512" in
  pw <- lift (UTF8.encode password) ;;
  dk <- hashlib_pbkdf2_hmac digest pw salt iterations None ;;
  s1 <- lift (UTF8.decode (Base64.b64encode salt)) ;;
  let b64_salt := rstrip s1 (lit "=") in
  s2 <- lift (UTF8.decode (Base64.b64encode dk)) ;;
  let b64_hash := rstrip s2 (lit "=") in
  ret (lit "$pbkdf2-" ++ digest ++ lit "$" ++ str_of_int iterations
       ++ lit "$" ++ b64_salt ++ lit "$" ++ b64_hash).

(** Lines 22 to 24: the length line and the chunk lines. *)
Definition report (full_hash : str) : M unit :=
  print (lit "Length: " ++ str_of_int (len full_hash)) ;;
  r <- lift (range 0 (len full_hash) 50) ;;
  for_each r (fun i =>
    print (lit "Chunk " ++ str_of_int (i / 50) ++ lit ": "
           ++ slice full_hash i (i + 50))).

(** The whole script: the argument check of lines 6 to 8, line 10, and
    the two parts above. *)
Definition main (argv : list str) : M unit :=
  when (len argv <? 2) (print usage ;; sys_exit 1) ;;
  password <- lift (getitem argv 1) ;;
  full_hash <- derive password ;;
  report full_hash.

End Script.

(** ** Vocabulary of the properties *)

(** A password the UTF-8 codec accepts: every code point is a Unicode
    scalar value. *)
Definition unicode_text (s : str) : bool := forallb UTF8.scalar s.

(** The characters of a [bytes] value that holds ASCII text. *)
Definition ascii_str (bs : bytes) : str := map Byte.to_N bs.

(** Standard base64 with the trailing ['='] characters removed. *)
Definition b64_nopad (bs : bytes) : str :=
  Py.rstrip (ascii_str (Base64.b64encode bs)) (lit "=").

(** The character class [[A-Za-z0-9+/]]. *)
Definition b64_char (c : N) : bool :=
  ((65 <=? c) && (c <=? 90) || (97 <=? c) && (c <=? 122)
   || (48 <=? c) && (c <=? 57) || (c =? 43) || (c =? 47))%N.

(** Regular expressions, as far as the format needs them, and what it
    is for a whole string to match one. *)
Inductive regex : Type :=
| Lit (s : str)
| Class (p : N -> bool)
| Cat (r1 r2 : regex)
| Plus (r : regex).

Inductive matches : regex -> str -> Prop :=
| MLit s : matches (Lit s) s
| MClass (p : N -> bool) c : p c = true -> matches (Class p) [c]
| MCat r1 r2 s1 s2 :
    matches r1 s1 -> matches r2 s2 -> matches (Cat r1 r2) (s1 ++ s2)
| MPlus1 r s : matches r s -> matches (Plus r) s
| MPlusS r s1 s2 :
    matches r s1 -> matches (Plus r) s2 -> matches (Plus r) (s1 ++ s2).

(** [^\$pbkdf2-sha512\$310000\$[A-Za-z0-9+/]+\$[A-Za-z0-9+/]+$] *)
Definition hash_regex : regex :=
  Cat (Lit (lit "$pbkdf2-sha512$310000$"))
      (Cat (Plus (Class b64_char))
           (Cat (Lit (lit "$")) (Plus (Class b64_char)))).

(** [s.split(sep)] for a separator of one character. *)
Fixpoint split_on (sep : N) (s : str) : list str :=
  match s with
  | [] => [[]]
  | c :: s' =>
      if N.eqb c sep then [] :: split_on sep s'
      else match split_on sep s' with
           | f :: fs => (c :: f) :: fs
           | [] => [[c]]
           end
  end.

(** How often [c] occurs in [s]. *)
Definition occurrences (c : N) (s : str) : nat :=
  length (filter (N.eqb c) s).

Definition dollar : N := 36.
Definition equals_sign : N := 61.

(** [ceil (n / d)] on natural numbers. *)
Definition ceil_div (n d : nat) : nat := (n + d - 1) / d.

(** [s] cut into [count] consecutive pieces of [size] characters. *)
Fixpoint chunks_from (count size : nat) (s : str) : list str :=
  match count with
  | O => []
  | S count' => firstn size s :: chunks_from count' size (skipn size s)
  end.

(** The consecutive 50-character pieces that cover [s]. *)
Definition chunks (s : str) : list str :=
  chunks_from (ceil_div (length s) 50) 50 s.

(** The line printed for chunk number [k] holding [c]. *)
Definition chunk_line (k : nat) (c : str) : str :=
  lit "Chunk " ++ Py.str_of_int (Z.of_nat k) ++ lit ": " ++ c.

(** The chunk lines for the chunks [cs], numbered from [k]. *)
Fixpoint chunk_lines (k : nat) (cs : list str) : list str :=
  match cs with
  | [] => []
  | c :: cs' => chunk_line k c :: chunk_lines (S k) cs'
  end.

Definition length_line (n : nat) : str :=
  lit "Length: " ++ Py.str_of_int (Z.of_nat n).

(** The string the script assembles from a salt and a derived key. *)
Definition hash_string (salt dk : bytes) : str :=
  lit "$pbkdf2-sha512$310000$" ++ b64_nopad salt ++ lit "$" ++ b64_nopad dk.

(** PBKDF2-HMAC-SHA512 with 310,000 iterations and a key as long as
    the digest, 64 octets. *)
Abbreviation derived_key pw salt :=
  (PBKDF2.pbkdf2_hmac_sha512 pw salt 310000 SHA512.digest_size).

(** The string assembled in the process [w] for the encoded
    password [pw]. *)
Abbreviation full_hash_of w pw :=
  (hash_string (next_bytes w 16) (derived_key pw (next_bytes w 16))).

(** The command line of an invocation with the arguments [args]. *)
Definition command_line (prog : str) (args : list str) : list str :=
  prog :: args.

(** The password on the command line, if there is one, is text the
    codec accepts. *)
Definition password_is_text (argv : list str) : bool :=
  match nth_error argv 1 with
  | Some password => unicode_text password
  | None => true
  end.

(** What a run added to standard output. *)
Definition printed (w w' : world) : list str :=
  skipn (length (stdout w)) (stdout w').

(** ** Sample inputs *)

Definition sample_prog : str := lit "generate_authelia_hash.py".
Definition sample_password : str := lit "hunter2".

(** A process that has printed nothing yet and whose random source
    hands out the octets [e 0], [e 1], ... *)
Definition fresh_world (e : nat -> byte) : world := World [] e 0 0.

Definition sample_salt : bytes :=
  [x00; x01; x02; x03; x04; x05; x06; x07;
   x08; x09; x0a; x0b; x0c; x0d; x0e; x0f].

(** A process whose random source hands out [salt] first. *)
Definition world_drawing (salt : bytes) : world :=
  fresh_world (fun i => nth i salt x00).

Definition zeros : nat -> byte := fun _ => x00.
Definition counting : nat -> byte := fun i => byte_of_N (N.of_nat i).

(** A password made of one lone surrogate, as [sys.argv] carries it for
    an argument that is not UTF-8. *)
Definition lone_surrogate : str := [0xDC80]%N.

(** Printable ASCII characters. *)
Definition printable (c : N) : bool := ((32 <=? c) && (c <? 127))%N.

(** Lines 18 and 19 as an expression of the octets [x]:
    [base64.b64encode(x).decode().rstrip('=')]. *)
Definition unpadded (x : bytes) : result str :=
  rbind (UTF8.decode (Base64.b64encode x))
        (fun s => Ok (Py.rstrip s (lit "="))).

(** * Properties *)

(** ** Test vectors

    The primitives are checked against the values the libraries return:
    the FIPS 180-4 and RFC 4231 examples, [hashlib.pbkdf2_hmac] with a
    small iteration count, and the RFC 4648 examples. *)

Example sha512_abc :
  hex (SHA512.digest (blit "abc")) =
  "ddaf35a193617abacc417349ae20413112e6fa4e89a97ea20a9eeee64b55d39a2192992a274fc1a836ba3c23a3feebbd454d4423643ce80e2a9ac94fa54ca49f"%string.
Proof. vm_compute. reflexivity. Qed.

Example sha512_empty :
  hex (SHA512.digest []) =
  "cf83e1357eefb8bdf1542850d66d8007d620e4050b5715dc83f4a921d36ce9ce47d0d13c5d85f2b0ff8318d2877eec2f63b931bd47417a81a538327af927da3e"%string.
Proof. vm_compute. reflexivity. Qed.

Example sha512_two_blocks :
  hex (SHA512.digest (repeat "a"%byte 200)) =
  "4b11459c33f52a22ee8236782714c150a3b2c60994e9acee17fe68947a3e6789f31e7668394592da7bef827cddca88c4e6f86e4df7ed1ae6cba71f3e98faee9f"%string.
Proof. vm_compute. reflexivity. Qed.

Example hmac_sha512_rfc4231_2 :
  hex (HMAC.hmac_sha512 (blit "Jefe") (blit "what do ya want for nothing?")) =
  "164b7a7bfcf819e2e395fbe73b56e0a387bd64222e831fd610270cd7ea2505549758bf75c05a994a6d034f65f8f0e6fdcaeab1a34d4a6b4b636e070a38bce737"%string.
Proof. vm_compute. reflexivity. Qed.

Example hmac_sha512_rfc4231_6 :
  hex (HMAC.hmac_sha512 (repeat xaa 131)
         (blit "Test Using Larger Than Block-Size Key - Hash Key First")) =
  "80b24263c7c1a3ebb71493c1dd7be8b49b46d1f41b4aeec1121b013783f8f3526b56d037e05f2598bd0fd2215d6a1e5295e64f73f63f0aec8b915a985d786598"%string.
Proof. vm_compute. reflexivity. Qed.

Example pbkdf2_one_iteration :
  hex (PBKDF2.pbkdf2_hmac_sha512 (blit "password") (blit "salt") 1 64) =
  "867f70cf1ade02cff3752599a3a53dc4af34c7a669815ae5d513554e1c8cf252c02d470a285a0501bad999bfe943c08f050235d7d68b1da55e63f73b60a57fce"%string.
Proof. vm_compute. reflexivity. Qed.

Example pbkdf2_two_iterations :
  hex (PBKDF2.pbkdf2_hmac_sha512 (blit "password") (blit "salt") 2 64) =
  "e1d9c16aa681708a45f5c7c4e215ceb66e011a2e9f0040713f18aefdb866d53cf76cab2868a39b9f7840edce4fef5a82be67335c77a6068e04112754f27ccf4e"%string.
Proof. vm_compute. reflexivity. Qed.

Example pbkdf2_two_blocks :
  hex (PBKDF2.pbkdf2_hmac_sha512 (blit "password") (blit "salt") 3 100) =
  "b6b07cb2cebf4ad84468391a543824fccffe0e0769dbe6bddf10a65673c4b648e612d44918f9ce9a19a1294cf5140628084ba994c3b21a4ef4741220b811c633cfc0641fccbcc4164f1bbfcb1f33f595ae9aa4a33ddcce570157775980362c0ee28aa340"%string.
Proof. vm_compute. reflexivity. Qed.

Example b64encode_rfc4648 :
  map Base64.b64encode [blit "foobar"; blit "fooba"; blit "foob"; blit ""] =
  [blit "Zm9vYmFy"; blit "Zm9vYmE="; blit "Zm9vYg=="; []].
Proof. vm_compute. reflexivity. Qed.

Example b64encode_sample_salt :
  Base64.b64encode sample_salt = blit "AAECAwQFBgcICQoLDA0ODw==" /\
  b64_nopad sample_salt = lit "AAECAwQFBgcICQoLDA0ODw".
Proof. split; vm_compute; reflexivity. Qed.

Example hash_string_sample :
  hash_string sample_salt (repeat x00 64) =
  lit "$pbkdf2-sha512$310000$AAECAwQFBgcICQoLDA0ODw$"
  ++ repeat 65%N 86.
Proof. vm_compute. reflexivity. Qed.

Example utf8_encode_text :
  UTF8.encode [0x68; 0xe9; 0x20ac; 0x1F600]%N =
  Ok [x68; xc3; xa9; xe2; x82; xac; xf0; x9f; x98; x80].
Proof. vm_compute. reflexivity. Qed.

Example utf8_decode_text :
  UTF8.decode [x68; xc3; xa9; xe2; x82; xac; xf0; x9f; x98; x80] =
  Ok [0x68; 0xe9; 0x20ac; 0x1F600]%N.
Proof. vm_compute. reflexivity. Qed.

Example utf8_encode_surrogate :
  UTF8.encode [0x68; 0xdc80]%N = Raise UnicodeEncodeError.
Proof. vm_compute. reflexivity. Qed.

Example str_of_int_values :
  Py.str_of_int 0 = lit "0" /\ Py.str_of_int 310000 = lit "310000" /\
  Py.str_of_int (-12) = lit "-12".
Proof. repeat split. Qed.

Example range_values :
  Py.range 0 131 50 = Ok [0; 50; 100]%Z /\
  Py.range 0 100 50 = Ok [0; 50]%Z /\
  Py.range 0 0 50 = Ok [] /\
  Py.range 5 (-3) (-3) = Ok [5; 2; -1]%Z /\
  Py.range 0 10 0 = Raise ValueError.
Proof. repeat split. Qed.

Example slice_values :
  Py.slice (lit "abcdef") 2 4 = lit "cd" /\
  Py.slice (lit "abcdef") 4 54 = lit "ef" /\
  Py.slice (lit "abcdef") (-2) 10 = lit "ef" /\
  Py.slice (lit "abcdef") 9 12 = [].
Proof. repeat split. Qed.

Example rstrip_values :
  Py.rstrip (lit "ab==c==") (lit "=") = lit "ab==c" /\
  Py.rstrip (lit "===") (lit "=") = [].
Proof. repeat split. Qed.

Example report_short_string :
  stdout (snd (Script.report (repeat 65%N 101) (fresh_world zeros))) =
  [lit "Length: 101";
   lit "Chunk 0: " ++ repeat 65%N 50;
   lit "Chunk 1: " ++ repeat 65%N 50;
   lit "Chunk 2: A"].
Proof. vm_compute. reflexivity. Qed.

(** ** Lengths of the cryptographic values *)

Lemma be_bytes_length width x : length (SHA512.be_bytes width x) = width.
Proof. unfold SHA512.be_bytes. now rewrite length_map, length_seq. Qed.

Lemma digest_length msg : length (SHA512.digest msg) = 64.
Proof.
  unfold SHA512.digest, SHA512.output.
  now rewrite !length_app, !be_bytes_length.
Qed.

Lemma hmac_length key msg : length (HMAC.hmac_sha512 key msg) = 64.
Proof. unfold HMAC.hmac_sha512. apply digest_length. Qed.

Lemma xor_bytes_length a b :
  length (PBKDF2.xor_bytes a b) = Nat.min (length a) (length b).
Proof. unfold PBKDF2.xor_bytes. now rewrite length_map, length_combine. Qed.

Section PBKDF2_length.
Variable prf : bytes -> bytes -> bytes.
Variable hLen : nat.
Hypothesis prf_length : forall k m, length (prf k m) = hLen.

Lemma F_length password salt c i :
  length (PBKDF2.F prf password salt c i) = hLen.
Proof.
  unfold PBKDF2.F.
  set (u1 := prf password _).
  enough (H : (fun ut => length (fst ut) = hLen /\ length (snd ut) = hLen)
                (N.iter (c - 1) (PBKDF2.step prf password) (u1, u1)))
    by apply H.
  apply N.iter_invariant.
  - intros [u t] [_ Ht]. unfold PBKDF2.step. cbn [fst snd] in *. split.
    + apply prf_length.
    + rewrite xor_bytes_length, Ht, prf_length. apply Nat.min_id.
  - split; apply prf_length.
Qed.

Lemma blocks_length password salt c (l start : nat) :
  length (concat (map (fun i => PBKDF2.F prf password salt c (N.of_nat i))
                      (seq start l))) = l * hLen.
Proof.
  revert start. induction l as [|l IH]; intros start; [reflexivity|].
  cbn [seq map concat]. rewrite length_app, F_length, IH. reflexivity.
Qed.

Lemma pbkdf2_length password salt c dkLen :
  0 < hLen ->
  length (PBKDF2.pbkdf2 prf hLen password salt c dkLen) = dkLen.
Proof.
  intros Hpos. unfold PBKDF2.pbkdf2.
  rewrite length_firstn, blocks_length. apply Nat.min_l.
  pose proof (Nat.div_mod_eq (dkLen + hLen - 1) hLen) as E.
  pose proof (Nat.mod_upper_bound (dkLen + hLen - 1) hLen) as B.
  nia.
Qed.
End PBKDF2_length.

Lemma derived_key_length password salt c :
  length (PBKDF2.pbkdf2_hmac_sha512 password salt c SHA512.digest_size) = 64.
Proof.
  unfold PBKDF2.pbkdf2_hmac_sha512.
  apply (pbkdf2_length HMAC.hmac_sha512 64 hmac_length).
  unfold SHA512.digest_size. lia.
Qed.

(** From here on the derived key is a value of known length; nothing
    below looks inside the key derivation. *)
#[global] Opaque PBKDF2.pbkdf2_hmac_sha512.

(** ** Base64 *)

(** Induction that follows [b64encode]: three octets at a time. *)
Lemma list_ind3 (A : Type) (P : list A -> Prop) :
  P [] -> (forall a, P [a]) -> (forall a b, P [a; b]) ->
  (forall a b c rest, P rest -> P (a :: b :: c :: rest)) ->
  forall l, P l.
Proof.
  intros H0 H1 H2 H3.
  fix IH 1. intros [|a [|b [|c rest]]].
  - exact H0.
  - apply H1.
  - apply H2.
  - apply H3, IH.
Qed.

Lemma alphabet_nth_class (n : nat) :
  n < 64 -> b64_char (Byte.to_N (nth n Base64.alphabet x00)) = true.
Proof.
  intros H. repeat (destruct n as [|n]; [reflexivity|]). lia.
Qed.

Lemma alphabet_nth_index (n : nat) :
  n < 64 -> Base64.index (nth n Base64.alphabet x00) = Some (N.of_nat n).
Proof.
  intros H. repeat (destruct n as [|n]; [reflexivity|]). lia.
Qed.

Lemma char_class i : (i < 64)%N -> b64_char (Byte.to_N (Base64.char i)) = true.
Proof. intros H. apply alphabet_nth_class. lia. Qed.

Lemma char_index i : (i < 64)%N -> Base64.index (Base64.char i) = Some i.
Proof.
  intros H. unfold Base64.char. rewrite alphabet_nth_index by lia.
  now rewrite N2Nat.id.
Qed.

Lemma char_inj i j :
  (i < 64)%N -> (j < 64)%N -> Base64.char i = Base64.char j -> i = j.
Proof.
  intros Hi Hj E. apply (f_equal Base64.index) in E.
  rewrite !char_index in E by assumption. congruence.
Qed.

Lemma char_not_pad i : (i < 64)%N -> Base64.char i <> Base64.pad_char.
Proof.
  intros H E. apply (f_equal (fun b => b64_char (Byte.to_N b))) in E.
  rewrite char_class in E by assumption. discriminate E.
Qed.

Lemma to_N_lt b : (Byte.to_N b < 256)%N.
Proof. pose proof (Byte.to_N_bounded b). lia. Qed.

Lemma to_N_inj a b : Byte.to_N a = Byte.to_N b -> a = b.
Proof.
  intros E. apply (f_equal Byte.of_N) in E.
  rewrite !Byte.of_to_N in E. congruence.
Qed.

(** The 6-bit values [b64encode] looks up are in range.  Quotients and
    remainders of octets are named and replaced by their defining
    equations, which leaves linear arithmetic. *)
Ltac octet_bound b :=
  lazymatch goal with
  | _ : (Byte.to_N b < 256)%N |- _ => fail
  | _ => pose proof (to_N_lt b)
  end.

Ltac euclid x d :=
  let q := fresh "q" in
  let r := fresh "r" in
  pose proof (N.div_mod x d ltac:(discriminate));
  pose proof (N.mod_lt x d ltac:(discriminate));
  set (q := (x / d)%N) in *; set (r := (x mod d)%N) in *;
  clearbody q r.

Ltac sextet :=
  repeat match goal with
         | |- context [Byte.to_N ?b] => octet_bound b
         | _ : context [Byte.to_N ?b] |- _ => octet_bound b
         end;
  repeat match goal with
         | |- context [(?x / ?d)%N] => euclid x d
         | |- context [(?x mod ?d)%N] => euclid x d
         | _ : context [(?x / ?d)%N] |- _ => euclid x d
         | _ : context [(?x mod ?d)%N] |- _ => euclid x d
         end;
  lia.

Lemma mod3_step n : S (S (S n)) mod 3 = n mod 3.
Proof.
  replace (S (S (S n))) with (n + 1 * 3) by lia. apply Nat.Div0.mod_add.
Qed.

Lemma div3_step n : (4 * S (S (S n)) + 2) / 3 = 4 + (4 * n + 2) / 3.
Proof.
  replace (4 * S (S (S n)) + 2) with (4 * n + 2 + 4 * 3) by lia.
  rewrite Nat.div_add by lia. lia.
Qed.

Lemma b64encode_sextets s :
  Base64.b64encode s =
  Base64.sextets s ++ repeat Base64.pad_char (Base64.padding (length s)).
Proof.
  induction s as [|a|a b|a b c rest IH] using list_ind3; try reflexivity.
  cbn [Base64.b64encode Base64.sextets]. rewrite IH.
  unfold Base64.padding. cbn [length]. rewrite mod3_step. reflexivity.
Qed.

Lemma sextets_length s : length (Base64.sextets s) = (4 * length s + 2) / 3.
Proof.
  induction s as [|a|a b|a b c rest IH] using list_ind3; try reflexivity.
  cbn [Base64.sextets length]. rewrite IH, div3_step. reflexivity.
Qed.

Lemma sextets_class s :
  Forall (fun b => b64_char (Byte.to_N b) = true) (Base64.sextets s).
Proof.
  induction s as [|a|a b|a b c rest IH] using list_ind3;
    cbn [Base64.sextets];
    repeat (apply Forall_cons; [apply char_class; sextet|]);
    first [exact IH | apply Forall_nil].
Qed.

Lemma cons_eq_inv {A : Type} (a b : A) (l m : list A) :
  a :: l = b :: m -> a = b /\ l = m.
Proof. intros E. injection E as E1 E2. now split. Qed.

(** Turn an equation between encodings into equations between the
    6-bit values. *)
Ltac same_sextets :=
  repeat match goal with
         | H : _ :: _ = _ :: _ |- _ =>
             let E := fresh "E" in
             apply cons_eq_inv in H; destruct H as [E H];
             apply char_inj in E; [|sextet..]
         end.

Lemma sextets_inj s1 s2 : Base64.sextets s1 = Base64.sextets s2 -> s1 = s2.
Proof.
  revert s2.
  induction s1 as [|a|a b|a b c rest IH] using list_ind3;
    intros [|a' [|b' [|c' rest']]]; cbn [Base64.sextets];
    intros E; try discriminate E; try reflexivity; same_sextets.
  - f_equal. apply to_N_inj. sextet.
  - f_equal; [|f_equal]; apply to_N_inj; sextet.
  - apply IH in E. subst rest'.
    f_equal; [|f_equal; [|f_equal]]; apply to_N_inj; sextet.
Qed.

Lemma b64_char_facts c :
  b64_char c = true -> (c < 128)%N /\ c <> equals_sign /\ c <> dollar.
Proof.
  unfold b64_char, equals_sign, dollar.
  rewrite !orb_true_iff, !andb_true_iff, !N.leb_le, !N.eqb_eq. lia.
Qed.

(** ** [rstrip], [decode] and the unpadded encoding *)

Lemma rstrip_all tail chars :
  Forall (fun c => existsb (N.eqb c) chars = true) tail ->
  Py.rstrip tail chars = [].
Proof.
  induction 1 as [|c tail Hc _ IH]; [reflexivity|].
  cbn [Py.rstrip]. now rewrite IH, Hc.
Qed.

Lemma rstrip_suffix body tail chars :
  Forall (fun c => existsb (N.eqb c) chars = false) body ->
  Forall (fun c => existsb (N.eqb c) chars = true) tail ->
  Py.rstrip (body ++ tail) chars = body.
Proof.
  intros Hb Ht. induction Hb as [|c body Hc Hb IH].
  - now apply rstrip_all.
  - cbn [app Py.rstrip]. rewrite IH. destruct body; [now rewrite Hc|reflexivity].
Qed.

Lemma decode_from_ascii fuel (bs : list N) :
  Forall (fun b => (b < 128)%N) bs -> length bs <= fuel ->
  UTF8.decode_from fuel bs = Ok bs.
Proof.
  intros H. revert fuel.
  induction H as [|b bs Hb _ IH]; intros [|fuel] Hlen; cbn [length] in Hlen;
    try reflexivity; try lia.
  cbn [UTF8.decode_from].
  apply N.ltb_lt in Hb. rewrite Hb. rewrite IH by lia. reflexivity.
Qed.

Lemma decode_ascii bs :
  Forall (fun b => (Byte.to_N b < 128)%N) bs ->
  UTF8.decode bs = Ok (ascii_str bs).
Proof.
  intros H. unfold UTF8.decode, ascii_str.
  apply decode_from_ascii.
  - now apply Forall_map.
  - now rewrite length_map.
Qed.

Lemma pad_is_stripped k :
  Forall (fun c => existsb (N.eqb c) (lit "=") = true)
         (ascii_str (repeat Base64.pad_char k)).
Proof. induction k; cbn; constructor; auto. Qed.

Lemma b64encode_is_ascii s :
  Forall (fun b => (Byte.to_N b < 128)%N) (Base64.b64encode s).
Proof.
  rewrite b64encode_sextets. apply Forall_app. split.
  - eapply Forall_impl; [|apply sextets_class].
    intros b Hb. now apply b64_char_facts in Hb.
  - apply Forall_forall. intros b Hb. apply repeat_spec in Hb. now subst b.
Qed.

Lemma b64_decode s :
  UTF8.decode (Base64.b64encode s) = Ok (ascii_str (Base64.b64encode s)).
Proof. apply decode_ascii, b64encode_is_ascii. Qed.

(** The unpadded encoding is made of the data characters alone. *)
Lemma b64_nopad_sextets s : b64_nopad s = ascii_str (Base64.sextets s).
Proof.
  unfold b64_nopad. rewrite b64encode_sextets.
  unfold ascii_str at 1. rewrite map_app. apply rstrip_suffix.
  - apply Forall_map. eapply Forall_impl; [|apply sextets_class].
    intros b Hb. apply b64_char_facts in Hb. destruct Hb as (_ & Hb & _).
    unfold equals_sign in Hb. apply N.eqb_neq in Hb.
    cbn. now rewrite Hb.
  - apply pad_is_stripped.
Qed.

Lemma b64_nopad_class s : Forall (fun c => b64_char c = true) (b64_nopad s).
Proof.
  rewrite b64_nopad_sextets. apply Forall_map, sextets_class.
Qed.

Lemma b64_nopad_length s : length (b64_nopad s) = (4 * length s + 2) / 3.
Proof.
  rewrite b64_nopad_sextets. unfold ascii_str.
  now rewrite length_map, sextets_length.
Qed.

Lemma b64_nopad_inj s1 s2 : b64_nopad s1 = b64_nopad s2 -> s1 = s2.
Proof.
  rewrite !b64_nopad_sextets. unfold ascii_str. intros E.
  apply sextets_inj. revert E.
  generalize (Base64.sextets s1) (Base64.sextets s2).
  intros l. induction l as [|x l IH]; intros [|y m] E;
    try discriminate E; auto.
  cbn [map] in E. injection E as E1 E2. f_equal; auto using to_N_inj.
Qed.

(** ** UTF-8 encoding of well-formed text *)

Lemma encode_point_scalar c :
  UTF8.scalar c = true -> exists bs, UTF8.encode_point c = Ok bs.
Proof.
  unfold UTF8.scalar, UTF8.encode_point. intros H.
  destruct (c <? 0x80)%N; [eauto|].
  destruct (c <? 0x800)%N; [eauto|].
  destruct (c <? 0x10000)%N eqn:E3.
  - destruct ((0xD800 <=? c) && (c <=? 0xDFFF))%N eqn:E; [|eauto].
    exfalso. revert H E.
    rewrite orb_true_iff, !andb_true_iff, !N.ltb_lt, !N.leb_le. lia.
  - destruct (c <? 0x110000)%N eqn:E4; [eauto|].
    exfalso. revert H E3 E4.
    rewrite orb_true_iff, !andb_true_iff, !N.ltb_lt, !N.ltb_ge. lia.
Qed.

Lemma encode_point_ok c bs :
  UTF8.encode_point c = Ok bs -> UTF8.scalar c = true.
Proof.
  unfold UTF8.scalar, UTF8.encode_point.
  destruct (c <? 0x80)%N eqn:E1.
  { intros _. apply N.ltb_lt in E1.
    rewrite orb_true_iff, N.ltb_lt. lia. }
  destruct (c <? 0x800)%N eqn:E2.
  { intros _. apply N.ltb_lt in E2.
    rewrite orb_true_iff, N.ltb_lt. lia. }
  destruct (c <? 0x10000)%N eqn:E3.
  - destruct ((0xD800 <=? c) && (c <=? 0xDFFF))%N eqn:E; [discriminate|].
    intros _. revert E E3.
    rewrite andb_false_iff, orb_true_iff, andb_true_iff, !N.ltb_lt,
      !N.leb_gt. lia.
  - destruct (c <? 0x110000)%N eqn:E4; [|discriminate].
    intros _. revert E3 E4.
    rewrite orb_true_iff, andb_true_iff, !N.ltb_lt, N.ltb_ge. lia.
Qed.

Lemma encode_text s :
  unicode_text s = true -> exists pw, UTF8.encode s = Ok pw.
Proof.
  induction s as [|c s IH]; cbn [unicode_text forallb UTF8.encode].
  - eauto.
  - rewrite andb_true_iff. intros [Hc Hs].
    destruct (encode_point_scalar c Hc) as [bs ->].
    destruct (IH Hs) as [rest ->]. cbn [rbind]. eauto.
Qed.

Lemma encode_ok_text s pw :
  UTF8.encode s = Ok pw -> unicode_text s = true.
Proof.
  revert pw. induction s as [|c s IH]; intros pw;
    cbn [unicode_text forallb UTF8.encode]; [reflexivity|].
  destruct (UTF8.encode_point c) as [bs|e] eqn:Ec; [|discriminate].
  destruct (UTF8.encode s) as [rest|e] eqn:Es; [|discriminate].
  intros _. apply encode_point_ok in Ec. rewrite Ec.
  exact (IH rest eq_refl).
Qed.

Lemma encode_not_text s :
  unicode_text s = false -> UTF8.encode s = Raise UnicodeEncodeError.
Proof.
  induction s as [|c s IH]; cbn [unicode_text forallb UTF8.encode];
    [discriminate|].
  destruct (UTF8.encode_point c) as [bs|e] eqn:Ec.
  - apply encode_point_ok in Ec. rewrite Ec. cbn [andb rbind].
    intros H. now rewrite (IH H).
  - intros _. cbn [rbind]. revert Ec. unfold UTF8.encode_point.
    repeat match goal with
           | |- context [if ?b then _ else _] => destruct b
           end;
      intros E; first [discriminate E | now inversion E].
Qed.

(** ** Running the script *)

Lemma bind_run {A B} (m : M A) (k : A -> M B) w a w1 :
  m w = (Ok a, w1) -> bind m k w = k a w1.
Proof. intros E. unfold bind. now rewrite E. Qed.

Lemma bind_raise {A B} (m : M A) (k : A -> M B) w e w1 :
  m w = (Raise e, w1) -> bind m k w = (Raise e, w1).
Proof. intros E. unfold bind. now rewrite E. Qed.

Lemma lift_run {A} (r : result A) a w : r = Ok a -> lift r w = (Ok a, w).
Proof. intros ->. reflexivity. Qed.

Lemma os_urandom_16 w :
  os_urandom 16%Z w =
  (Ok (next_bytes w 16),
   World (stdout w) (entropy w) (drawn w + 16) (kdf_calls w)).
Proof. reflexivity. Qed.

Lemma pbkdf2_hmac_run pw salt w :
  hashlib_pbkdf2_hmac (lit "sha512") pw salt 310000%Z None w =
  (Ok (derived_key pw salt),
   World (stdout w) (entropy w) (drawn w) (S (kdf_calls w))).
Proof.
  unfold hashlib_pbkdf2_hmac.
  change (negb (Py.str_eqb (lit "sha512") (lit "sha512"))) with false.
  change (310000 <? 1)%Z with false. cbv iota.
  change (Z.to_N 310000) with 310000%N.
  reflexivity.
Qed.

Lemma next_bytes_length w n : length (next_bytes w n) = n.
Proof. unfold next_bytes. now rewrite length_map, length_seq. Qed.

(** The f-string of line 21, up to the salt segment. *)
Lemma format_prefix (rest : str) :
  lit "$pbkdf2-" ++ lit "sha512" ++ lit "$" ++ Py.str_of_int 310000%Z
    ++ lit "$" ++ rest
  = lit "$pbkdf2-sha512$310000$" ++ rest.
Proof. reflexivity. Qed.

Lemma hash_string_eq (salt dk : bytes) :
  lit "$pbkdf2-sha512$310000$"
    ++ Py.rstrip (ascii_str (Base64.b64encode salt)) (lit "=")
    ++ lit "$" ++ Py.rstrip (ascii_str (Base64.b64encode dk)) (lit "=")
  = hash_string salt dk.
Proof. reflexivity. Qed.

(** One statement of the script has run: continue with the next. *)
Tactic Notation "ran" uconstr(H) :=
  erewrite (bind_run _ _ _ _ _ H).
Tactic Notation "lifted" uconstr(H) :=
  erewrite (bind_run _ _ _ _ _ (lift_run _ _ _ H)).

Lemma derive_run password w pw :
  UTF8.encode password = Ok pw ->
  Script.derive password w =
  (Ok (full_hash_of w pw),
   World (stdout w) (entropy w) (drawn w + 16) (S (kdf_calls w))).
Proof.
  intros Hpw. unfold Script.derive.
  ran (os_urandom_16 _). lifted Hpw. ran (pbkdf2_hmac_run _ _ _).
  lifted (b64_decode _). lifted (b64_decode _).
  unfold ret. rewrite format_prefix, hash_string_eq. reflexivity.
Qed.

Lemma derive_raise password w :
  unicode_text password = false ->
  Script.derive password w =
  (Raise UnicodeEncodeError,
   World (stdout w) (entropy w) (drawn w + 16) (kdf_calls w)).
Proof.
  intros H. unfold Script.derive.
  ran (os_urandom_16 w).
  apply bind_raise. unfold lift. now rewrite (encode_not_text _ H).
Qed.

(** ** Slicing into chunks *)

Lemma firstn_beyond {A : Type} (n : nat) (l : list A) :
  firstn (Nat.min n (length l)) l = firstn n l.
Proof.
  destruct (Nat.le_ge_cases n (length l)) as [H|H].
  - now rewrite Nat.min_l.
  - rewrite Nat.min_r by assumption. now rewrite !firstn_all2 by lia.
Qed.

Lemma slice_chunk (s : str) (k : nat) :
  Py.slice s (Z.of_nat k) (Z.of_nat k + 50)%Z = firstn 50 (skipn k s).
Proof.
  unfold Py.slice, Py.clamp, Py.len.
  destruct (Z.ltb_spec (Z.of_nat k) 0) as [H|_]; [lia|].
  destruct (Z.ltb_spec (Z.of_nat k + 50)%Z 0) as [H|_]; [lia|].
  destruct (Nat.le_gt_cases k (length s)) as [Hk|Hk].
  - rewrite (Z.min_l (Z.of_nat k)) by lia. rewrite Nat2Z.id.
    rewrite <- (firstn_beyond 50 (skipn k s)), length_skipn. f_equal. lia.
  - rewrite !Z.min_r by lia. rewrite Z.sub_diag.
    rewrite (skipn_all2 s (n := k)) by lia. now rewrite firstn_nil.
Qed.

Lemma range_chunks (n : nat) :
  Py.range 0%Z (Z.of_nat n) 50%Z =
  Ok (map (fun k => Z.of_nat (50 * k)) (seq 0 (ceil_div n 50))).
Proof.
  unfold Py.range, Py.range_len, ceil_div.
  change (50 =? 0)%Z with false. change (0 <? 50)%Z with true. cbv iota.
  match goal with
  | |- context [Z.to_nat ?len] =>
      assert (E : Z.to_nat len = (n + 50 - 1) / 50)
  end.
  { destruct (Z.ltb_spec 0 (Z.of_nat n)) as [H|H].
    - apply Nat2Z.inj. rewrite Z2Nat.id.
      + rewrite Nat2Z.inj_div. zify. Z.to_euclidean_division_equations. lia.
      + zify. Z.to_euclidean_division_equations. lia.
    - assert (n = 0) by lia. subst n. reflexivity. }
  rewrite E. f_equal. apply map_ext. intros k. lia.
Qed.

Lemma chunk_index (k : nat) : (Z.of_nat (50 * k) / 50)%Z = Z.of_nat k.
Proof. rewrite Nat2Z.inj_mul, Z.mul_comm. apply Z.div_mul. lia. Qed.

Lemma chunk_lines_from (count j : nat) (s : str) :
  chunk_lines j (chunks_from count 50 s) =
  map (fun k => chunk_line (j + k) (firstn 50 (skipn (50 * k) s)))
      (seq 0 count).
Proof.
  revert j s. induction count as [|count IH]; intros j s; [reflexivity|].
  cbn [chunks_from chunk_lines seq map].
  rewrite Nat.add_0_r, Nat.mul_0_r. change (skipn 0 s) with s. f_equal.
  rewrite IH, <- seq_shift, map_map. apply map_ext. intros k.
  rewrite skipn_skipn. f_equal; [lia|]. do 2 f_equal. lia.
Qed.

Lemma chunks_concat (count : nat) (s : str) :
  length s <= 50 * count -> concat (chunks_from count 50 s) = s.
Proof.
  revert s. induction count as [|count IH]; intros s H.
  - destruct s; [reflexivity|cbn in H; lia].
  - cbn [chunks_from concat]. rewrite IH.
    + apply firstn_skipn.
    + rewrite length_skipn. lia.
Qed.

Lemma chunks_from_length (count size : nat) (s : str) :
  length (chunks_from count size s) = count.
Proof.
  revert s. induction count as [|count IH]; intros s; cbn; [|rewrite IH];
    reflexivity.
Qed.

Lemma chunks_from_nth (count k : nat) (s : str) :
  k < count ->
  nth k (chunks_from count 50 s) [] = firstn 50 (skipn (50 * k) s).
Proof.
  revert k s. induction count as [|count IH]; intros k s H; [lia|].
  destruct k as [|k]; [reflexivity|].
  cbn [chunks_from nth]. rewrite IH by lia. rewrite skipn_skipn.
  do 2 f_equal. lia.
Qed.

Lemma ceil_div_50 (n : nat) :
  n <= 50 * ceil_div n 50 /\ 50 * ceil_div n 50 < n + 50.
Proof.
  unfold ceil_div.
  pose proof (Nat.div_mod_eq (n + 50 - 1) 50).
  pose proof (Nat.mod_upper_bound (n + 50 - 1) 50). lia.
Qed.

(** ** Printing *)

Lemma print_run s w :
  print s w =
  (Ok tt, World (stdout w ++ [s]) (entropy w) (drawn w) (kdf_calls w)).
Proof. reflexivity. Qed.

Lemma for_each_print {A : Type} (xs : list A) (line : A -> str) w :
  for_each xs (fun x => print (line x)) w =
  (Ok tt,
   World (stdout w ++ map line xs) (entropy w) (drawn w) (kdf_calls w)).
Proof.
  revert w. induction xs as [|x xs IH]; intros w; cbn [for_each map].
  - rewrite app_nil_r. now destruct w.
  - ran (print_run _ _). rewrite IH. cbn [stdout entropy drawn kdf_calls].
    now rewrite <- app_assoc.
Qed.

Lemma report_run full w :
  Script.report full w =
  (Ok tt,
   World (stdout w ++ length_line (length full) :: chunk_lines 0 (chunks full))
         (entropy w) (drawn w) (kdf_calls w)).
Proof.
  unfold Script.report, Py.len.
  ran (print_run _ _). lifted (range_chunks _).
  rewrite for_each_print. cbn [stdout entropy drawn kdf_calls].
  rewrite <- app_assoc. cbn [app]. do 3 f_equal.
  unfold chunks, length_line. rewrite chunk_lines_from, map_map.
  f_equal. apply map_ext. intros k. cbn [Nat.add].
  rewrite chunk_index, slice_chunk. reflexivity.
Qed.

(** ** The three ways a run can go *)

Lemma main_usage argv w :
  length argv < 2 ->
  Script.main argv w =
  (Raise (SystemExit 1%Z),
   World (stdout w ++ [Script.usage]) (entropy w) (drawn w) (kdf_calls w)).
Proof.
  intros H. unfold Script.main, Py.len.
  destruct (Z.ltb_spec (Z.of_nat (length argv)) 2) as [_|H']; [|lia].
  cbn [when]. apply bind_raise.
  ran (print_run _ _). reflexivity.
Qed.

Lemma getitem_1 {A : Type} (x y : A) (l : list A) :
  Py.getitem (x :: y :: l) 1%Z = Ok y.
Proof.
  unfold Py.getitem, Py.len. change (1 <? 0)%Z with false. cbv iota.
  destruct (Z.leb_spec (Z.of_nat (length (x :: y :: l))) 1) as [H|_].
  - cbn [length] in H. lia.
  - reflexivity.
Qed.

Lemma main_guard_passed (prog password : str) (rest : list str)
    (k : M unit) w :
  bind (when (Py.len (prog :: password :: rest) <? 2)%Z
             (bind (print Script.usage) (fun _ => sys_exit 1%Z)))
       (fun _ => k) w = k w.
Proof.
  unfold Py.len.
  destruct (Z.ltb_spec (Z.of_nat (length (prog :: password :: rest))) 2)
    as [H|_].
  - cbn [length] in H. lia.
  - reflexivity.
Qed.

Lemma main_success prog password rest w pw :
  UTF8.encode password = Ok pw ->
  Script.main (prog :: password :: rest) w =
  (Ok tt,
   World (stdout w
          ++ length_line (length (full_hash_of w pw))
          :: chunk_lines 0 (chunks (full_hash_of w pw)))
         (entropy w) (drawn w + 16) (S (kdf_calls w))).
Proof.
  intros Hpw. unfold Script.main.
  rewrite main_guard_passed.
  lifted (getitem_1 _ _ _). ran (derive_run _ _ _ Hpw).
  rewrite report_run. reflexivity.
Qed.

Lemma main_bad_password prog password rest w :
  unicode_text password = false ->
  Script.main (prog :: password :: rest) w =
  (Raise UnicodeEncodeError,
   World (stdout w) (entropy w) (drawn w + 16) (kdf_calls w)).
Proof.
  intros H. unfold Script.main.
  rewrite main_guard_passed.
  lifted (getitem_1 _ _ _). apply bind_raise. now apply derive_raise.
Qed.

(** ** The shape of the assembled string *)

Lemma lacks_spec (sep : N) (s : str) :
  forallb (fun c => negb (N.eqb c sep)) s = true -> ~ In sep s.
Proof.
  rewrite forallb_forall. intros H Hin. specialize (H sep Hin).
  now rewrite N.eqb_refl in H.
Qed.

Lemma split_on_whole sep s : ~ In sep s -> split_on sep s = [s].
Proof.
  induction s as [|c s IH]; intros H; [reflexivity|].
  cbn [split_on]. destruct (N.eqb_spec c sep) as [->|_].
  - exfalso. apply H. now left.
  - rewrite IH; [reflexivity|]. intros Hin. apply H. now right.
Qed.

Lemma split_on_app sep a b :
  ~ In sep a -> split_on sep (a ++ sep :: b) = a :: split_on sep b.
Proof.
  induction a as [|c a IH]; intros H; cbn [app split_on].
  - now rewrite N.eqb_refl.
  - destruct (N.eqb_spec c sep) as [->|_].
    + exfalso. apply H. now left.
    + rewrite IH; [reflexivity|]. intros Hin. apply H. now right.
Qed.

Lemma occurrences_app c a b :
  occurrences c (a ++ b) = occurrences c a + occurrences c b.
Proof. unfold occurrences. now rewrite filter_app, length_app. Qed.

Lemma occurrences_none c s : ~ In c s -> occurrences c s = 0.
Proof.
  unfold occurrences. induction s as [|x s IH]; intros H; [reflexivity|].
  cbn [filter]. destruct (N.eqb_spec c x) as [->|_].
  - exfalso. apply H. now left.
  - apply IH. intros Hin. apply H. now right.
Qed.

Lemma plus_class (p : N -> bool) (s : str) :
  s <> [] -> Forall (fun c => p c = true) s -> matches (Plus (Class p)) s.
Proof.
  intros Hne H. induction H as [|c s Hc H IH]; [congruence|].
  destruct s as [|d s].
  - apply MPlus1. now apply MClass.
  - change (c :: d :: s) with ([c] ++ d :: s).
    apply MPlusS; [now apply MClass|]. apply IH. discriminate.
Qed.

Section Format.
Variables seg_salt seg_hash : str.
Hypothesis salt_class : Forall (fun c => b64_char c = true) seg_salt.
Hypothesis hash_class : Forall (fun c => b64_char c = true) seg_hash.

Local Abbreviation full :=
  (lit "$pbkdf2-sha512$310000$" ++ seg_salt ++ lit "$" ++ seg_hash).

Lemma class_lacks (c : N) (s : str) :
  b64_char c = false -> Forall (fun c => b64_char c = true) s -> ~ In c s.
Proof.
  intros Hc H Hin. rewrite Forall_forall in H. specialize (H c Hin).
  congruence.
Qed.

Lemma format_matches :
  seg_salt <> [] -> seg_hash <> [] -> matches hash_regex full.
Proof.
  intros Hs Hh. unfold hash_regex.
  apply MCat; [apply MLit|].
  apply MCat; [now apply plus_class|].
  apply MCat; [apply MLit|]. now apply plus_class.
Qed.

Lemma format_fields :
  split_on dollar full =
  [[]; lit "pbkdf2-sha512"; lit "310000"; seg_salt; seg_hash].
Proof.
  change full with
    ([] ++ dollar :: lit "pbkdf2-sha512" ++ dollar :: lit "310000"
        ++ dollar :: seg_salt ++ dollar :: seg_hash).
  rewrite !split_on_app, split_on_whole; try reflexivity;
    try (apply lacks_spec; reflexivity);
    try (apply class_lacks; [reflexivity|assumption]).
Qed.

Lemma format_dollars : occurrences dollar full = 4.
Proof.
  rewrite !occurrences_app.
  rewrite (@occurrences_none dollar seg_salt),
          (@occurrences_none dollar seg_hash);
    try (apply class_lacks; [reflexivity|assumption]).
  reflexivity.
Qed.

Lemma format_length :
  length full = 22 + length seg_salt + 1 + length seg_hash.
Proof. rewrite !length_app. cbn. lia. Qed.
End Format.

Lemma hash_string_fields salt dk :
  split_on dollar (hash_string salt dk) =
  [[]; lit "pbkdf2-sha512"; lit "310000"; b64_nopad salt; b64_nopad dk].
Proof. apply format_fields; apply b64_nopad_class. Qed.

Lemma hash_string_length salt dk :
  length salt = 16 -> length dk = 64 -> length (hash_string salt dk) = 131.
Proof.
  intros Hs Hd. unfold hash_string.
  rewrite format_length, !b64_nopad_length, Hs, Hd. reflexivity.
Qed.

Lemma hash_string_inj salt1 dk1 salt2 dk2 :
  hash_string salt1 dk1 = hash_string salt2 dk2 ->
  salt1 = salt2 /\ dk1 = dk2.
Proof.
  intros E. apply (f_equal (split_on dollar)) in E.
  rewrite !hash_string_fields in E.
  injection E as Es Ed. split; now apply b64_nopad_inj.
Qed.

Lemma b64_nopad_nonempty s : s <> [] -> b64_nopad s <> [].
Proof.
  intros Hs E. apply (f_equal (@length N)) in E.
  rewrite b64_nopad_length in E. destruct s as [|a s]; [congruence|].
  cbn [length] in E.
  pose proof (Nat.div_mod_eq (4 * S (length s) + 2) 3).
  pose proof (Nat.mod_upper_bound (4 * S (length s) + 2) 3).
  cbn [length] in *. lia.
Qed.

Lemma nonempty_of_length {A : Type} (l : list A) n :
  length l = S n -> l <> [].
Proof. now destruct l. Qed.

Lemma derived_key_64 pw salt : length (derived_key pw salt) = 64.
Proof. apply derived_key_length. Qed.

Lemma full_hash_length w pw : length (full_hash_of w pw) = 131.
Proof.
  apply hash_string_length; [apply next_bytes_length|apply derived_key_64].
Qed.

Lemma printed_app w lines e d k :
  printed w (World (stdout w ++ lines) e d k) = lines.
Proof.
  unfold printed. cbn [stdout]. rewrite skipn_app, skipn_all, Nat.sub_diag.
  reflexivity.
Qed.

(** ** Decimal numerals *)

Lemma uint_str_inj d d' : Py.uint_str d = Py.uint_str d' -> d = d'.
Proof.
  revert d'. induction d; intros []; cbn [Py.uint_str]; intros E;
    try discriminate E; try reflexivity;
    injection E as E; f_equal; auto.
Qed.

Lemma uint_str_no_sign d : hd_error (Py.uint_str d) <> Some 45%N.
Proof. destruct d; cbn; congruence. Qed.

Lemma str_of_int_inj a b : Py.str_of_int a = Py.str_of_int b -> a = b.
Proof.
  unfold Py.str_of_int. intros E. apply DecimalZ.to_int_inj.
  destruct (Z.to_int a) as [d|d], (Z.to_int b) as [d'|d'].
  - f_equal. now apply uint_str_inj.
  - exfalso. apply (uint_str_no_sign d). now rewrite E.
  - exfalso. apply (uint_str_no_sign d'). now rewrite <- E.
  - injection E as E. f_equal. now apply uint_str_inj.
Qed.

Lemma hash_string_unfold salt dk :
  hash_string salt dk =
  lit "$pbkdf2-sha512$310000$" ++ b64_nopad salt ++ lit "$" ++ b64_nopad dk.
Proof. reflexivity. Qed.

(** ** What the regular expression says *)

Lemma plus_class_inv (p : N -> bool) (r : regex) (s : str) :
  matches r s -> r = Plus (Class p) ->
  s <> [] /\ Forall (fun c => p c = true) s.
Proof.
  induction 1 as [s|q c Hc|r1 r2 s1 s2 _ _ _ _|r s H _|r s1 s2 H1 _ _ IH];
    intros E; try discriminate E; injection E as ->.
  - inversion H; subst. split; [discriminate|]. now constructor.
  - inversion H1; subst. split; [discriminate|].
    constructor; [assumption|]. now apply IH.
Qed.

(** A string matches the expression exactly when it is the fixed
    prefix, a non-empty run of base64 characters, [$], and another
    such run. *)
Lemma hash_regex_spec (s : str) :
  matches hash_regex s <->
  exists a b,
    s = lit "$pbkdf2-sha512$310000$" ++ a ++ lit "$" ++ b /\
    a <> [] /\ Forall (fun c => b64_char c = true) a /\
    b <> [] /\ Forall (fun c => b64_char c = true) b.
Proof.
  split.
  - unfold hash_regex. intros H.
    inversion H as [| |r1 r2 s1 s2 Hp H1 E1 E2|  |]; subst; clear H.
    inversion Hp; subst; clear Hp.
    inversion H1 as [| |r1 r2 a s3 Ha H2 E1 E2| |]; subst; clear H1.
    inversion H2 as [| |r1 r2 s4 b Hd Hb E1 E2| |]; subst; clear H2.
    inversion Hd; subst; clear Hd.
    destruct (plus_class_inv b64_char _ _ Ha eq_refl) as [Hane Hacl].
    destruct (plus_class_inv b64_char _ _ Hb eq_refl) as [Hbne Hbcl].
    exists a, b. auto.
  - intros (a & b & -> & Hane & Hacl & Hbne & Hbcl).
    now apply format_matches.
Qed.

Example regex_rejects_padding :
  ~ matches hash_regex (lit "$pbkdf2-sha512$310000$AAECAwQFBgcICQoLDA0ODw==$Zm9v").
Proof.
  rewrite hash_regex_spec. intros (a & b & E & _ & Ha & _ & Hb).
  assert (Hin : In equals_sign (a ++ lit "$" ++ b)).
  { change (lit "$pbkdf2-sha512$310000$AAECAwQFBgcICQoLDA0ODw==$Zm9v")
      with (lit "$pbkdf2-sha512$310000$"
            ++ lit "AAECAwQFBgcICQoLDA0ODw==$Zm9v") in E.
    apply app_inv_head in E. rewrite <- E.
    cbn. do 22 right. left. reflexivity. }
  apply in_app_or in Hin. destruct Hin as [Hin|Hin].
  - revert Hin. now apply class_lacks.
  - apply in_app_or in Hin. destruct Hin as [Hin|Hin].
    + cbn in Hin. destruct Hin as [Hin|[]]. discriminate Hin.
    + revert Hin. now apply class_lacks.
Qed.

(** ** Every salt can come out of the random source *)

Lemma nth_seq_map (A : Type) (l : list A) (d : A) :
  map (fun i => nth i l d) (seq 0 (length l)) = l.
Proof.
  induction l as [|x l IH]; [reflexivity|].
  cbn [length seq map nth]. f_equal.
  rewrite <- seq_shift, map_map. exact IH.
Qed.

Lemma any_salt_is_drawn (salt : bytes) :
  next_bytes (world_drawing salt) (length salt) = salt.
Proof.
  unfold next_bytes, world_drawing, fresh_world. cbn [entropy drawn].
  apply nth_seq_map.
Qed.

(** * The properties of the specification *)

(** C1. For every password the UTF-8 codec accepts and every 16-byte salt
    the random source hands out, [full_hash] is the text
    [$pbkdf2-sha512$310000$], then the standard base64 of the salt
    without its trailing [=], then [$], then the standard base64,
    without its trailing [=], of the 64-byte key that PBKDF2-HMAC-SHA512
    derives from the UTF-8 encoding of the password with that salt in
    310,000 iterations. *)
Theorem full_hash_format (password : str) (w : world) (salt : bytes) :
  unicode_text password = true ->
  next_bytes w 16 = salt ->
  exists pw dk w1,
    UTF8.encode password = Ok pw /\
    dk = PBKDF2.pbkdf2_hmac_sha512 pw salt 310000 64 /\
    length salt = 16 /\
    length dk = 64 /\
    Script.derive password w =
    (Ok (lit "$pbkdf2-sha512$310000$" ++ b64_nopad salt ++ lit "$"
         ++ b64_nopad dk), w1).
Proof.
  intros Htext Hsalt. destruct (encode_text _ Htext) as [pw Hpw].
  exists pw, (derived_key pw salt). eexists.
  split; [exact Hpw|]. split; [reflexivity|].
  split; [rewrite <- Hsalt; apply next_bytes_length|].
  split; [apply derived_key_64|].
  rewrite (derive_run _ w _ Hpw), Hsalt, hash_string_unfold. reflexivity.
Qed.

Lemma full_hash_format_witness :
  unicode_text sample_password = true /\
  next_bytes (fresh_world counting) 16 = sample_salt /\
  exists pw dk w1,
    UTF8.encode sample_password = Ok pw /\
    dk = PBKDF2.pbkdf2_hmac_sha512 pw sample_salt 310000 64 /\
    length sample_salt = 16 /\
    length dk = 64 /\
    Script.derive sample_password (fresh_world counting) =
    (Ok (lit "$pbkdf2-sha512$310000$" ++ b64_nopad sample_salt ++ lit "$"
         ++ b64_nopad dk), w1).
Proof.
  split; [reflexivity|]. split; [reflexivity|].
  apply (full_hash_format sample_password (fresh_world counting) sample_salt);
    reflexivity.
Defined.

(** ** The argument check *)

Lemma chunk_lines_start k cs line :
  In line (chunk_lines k cs) -> hd_error line = Some 67%N.
Proof.
  revert k. induction cs as [|c cs IH]; intros k; cbn [chunk_lines In].
  - intros [].
  - intros [<-|H]; [reflexivity|]. now apply (IH (S k)).
Qed.

Lemma usage_not_printed n cs :
  ~ In Script.usage (length_line n :: chunk_lines 0 cs).
Proof.
  intros [E|H].
  - apply (f_equal (@hd_error N)) in E. discriminate E.
  - apply chunk_lines_start in H. discriminate H.
Qed.

(** With an argument in second place too, the run goes on to the hash. *)
Lemma further_arguments_run (prog password extra : str) (w : world) :
  unicode_text password = true ->
  exit_status
    (fst (Script.main (command_line prog [password; extra]) w)) = 0%Z /\
  ~ In Script.usage
      (printed w (snd (Script.main (command_line prog [password; extra]) w)))
  /\ hd_error
       (printed w (snd (Script.main (command_line prog [password; extra]) w)))
     = Some (lit "Length: 131").
Proof.
  intros Htext. destruct (encode_text _ Htext) as [pw Hpw].
  unfold command_line. rewrite (main_success prog _ [extra] w _ Hpw).
  cbn [fst snd]. rewrite printed_app.
  rewrite (full_hash_length w pw).
  split; [reflexivity|].
  split; [apply usage_not_printed|reflexivity].
Qed.

(** C2, as stated, fails: with two arguments the run does not stop at
    the check.  It ends with status 0, prints a length line, and never
    prints the usage message. *)
Lemma two_arguments_are_hashed :
  length [sample_password; lit "extra"] <> 1 /\
  exit_status
    (fst (Script.main
            (command_line sample_prog [sample_password; lit "extra"])
            (fresh_world zeros))) = 0%Z /\
  ~ In Script.usage
      (printed (fresh_world zeros)
         (snd (Script.main
                 (command_line sample_prog [sample_password; lit "extra"])
                 (fresh_world zeros)))) /\
  hd_error
    (printed (fresh_world zeros)
       (snd (Script.main
               (command_line sample_prog [sample_password; lit "extra"])
               (fresh_world zeros)))) = Some (lit "Length: 131").
Proof.
  split; [discriminate|].
  exact (further_arguments_run sample_prog sample_password (lit "extra")
           (fresh_world zeros) eq_refl).
Qed.

(** Past the argument check the run is lines 10 to 24 on [argv[1]]. *)
Lemma main_passes_check (prog password : str) (rest : list str) (w : world) :
  Script.main (prog :: password :: rest) w =
  bind (Script.derive password) Script.report w.
Proof.
  unfold Script.main. rewrite main_guard_passed.
  lifted (getitem_1 _ _ _). reflexivity.
Qed.

Lemma nothing_printed w e d k : printed w (World (stdout w) e d k) = [].
Proof. unfold printed. cbn [stdout]. apply skipn_all. Qed.

(** C2, amended.  With no argument the run prints the usage message,
    nothing else, and ends with status 1.  With one argument or more it
    passes the check: the run is then the derivation on the first
    argument, taken as the password, followed by the printing of its
    result; it does not end in the [SystemExit] of the check and does
    not print the usage message, and for a password the codec accepts
    it ends with status 0 after a first line [Length: 131].  The
    arguments after the first are ignored: the run is the run on the
    first argument alone. *)
Theorem argument_check (prog : str) (w : world) :
  (Script.main (command_line prog []) w =
   (Raise (SystemExit 1),
    World (stdout w ++ [Script.usage]) (entropy w) (drawn w) (kdf_calls w))
   /\ exit_status (fst (Script.main (command_line prog []) w)) = 1%Z
   /\ printed w (snd (Script.main (command_line prog []) w))
      = [Script.usage])
  /\ forall (password : str) (rest : list str),
       Script.main (command_line prog (password :: rest)) w =
       Script.main (command_line prog [password]) w
       /\ Script.main (command_line prog (password :: rest)) w =
          bind (Script.derive password) Script.report w
       /\ fst (Script.main (command_line prog (password :: rest)) w)
          <> Raise (SystemExit 1)
       /\ ~ In Script.usage
            (printed w
               (snd (Script.main (command_line prog (password :: rest)) w)))
       /\ (unicode_text password = true ->
           exit_status
             (fst (Script.main (command_line prog (password :: rest)) w))
           = 0%Z
           /\ hd_error
                (printed w
                   (snd (Script.main
                           (command_line prog (password :: rest)) w)))
              = Some (lit "Length: 131")).
Proof.
  split.
  - unfold command_line. rewrite main_usage by (cbn; lia).
    cbn [fst snd]. rewrite printed_app. auto.
  - intros password rest. unfold command_line.
    split; [now rewrite !main_passes_check|].
    split; [apply main_passes_check|].
    destruct (unicode_text password) eqn:Htext.
    + destruct (encode_text _ Htext) as [pw Hpw].
      rewrite (main_success prog password rest w pw Hpw).
      cbn [fst snd]. rewrite printed_app, (full_hash_length w pw).
      split; [discriminate|]. split; [apply usage_not_printed|].
      intros _. split; reflexivity.
    + rewrite (main_bad_password prog password rest w Htext).
      cbn [fst snd]. rewrite nothing_printed.
      split; [discriminate|]. split; [intros []|discriminate].
Qed.

(** C5. With no argument the run ends with status 1, the usage line is
    the one line it prints, no random octet is drawn and
    [hashlib.pbkdf2_hmac] is not called. *)
Theorem no_argument_run (prog : str) (w : world) :
  exists w',
    Script.main (command_line prog []) w = (Raise (SystemExit 1), w') /\
    exit_status (fst (Script.main (command_line prog []) w)) = 1%Z /\
    printed w w' = [Script.usage] /\
    Script.usage = lit "Usage: python3 generate_authelia_hash.py <password>" /\
    w' = World (stdout w ++ [Script.usage]) (entropy w) (drawn w)
               (kdf_calls w) /\
    drawn w' = drawn w /\
    kdf_calls w' = kdf_calls w.
Proof.
  unfold command_line. rewrite main_usage by (cbn; lia).
  eexists. split; [reflexivity|]. cbn [fst]. rewrite printed_app.
  repeat split.
Qed.

(** ** The chunks of any string *)

Lemma chunks_cover (s : str) : concat (chunks s) = s.
Proof. unfold chunks. apply chunks_concat, ceil_div_50. Qed.

Lemma chunks_count (s : str) : length (chunks s) = ceil_div (length s) 50.
Proof. unfold chunks. apply chunks_from_length. Qed.

Lemma chunks_full_size (s : str) (k : nat) :
  S k < length (chunks s) -> length (nth k (chunks s) []) = 50.
Proof.
  rewrite chunks_count. intros H. unfold chunks.
  rewrite chunks_from_nth by lia.
  rewrite length_firstn, length_skipn.
  pose proof (ceil_div_50 (length s)). lia.
Qed.

Lemma chunks_131 (s : str) :
  length s = 131 ->
  chunks s = [firstn 50 s; firstn 50 (skipn 50 s); skipn 100 s].
Proof.
  intros H. unfold chunks. rewrite H.
  change (ceil_div 131 50) with 3. cbn [chunks_from].
  rewrite skipn_skipn. change (50 + 50) with 100.
  do 2 f_equal. f_equal. apply firstn_all2. rewrite length_skipn. lia.
Qed.

Lemma report_131 (s : str) :
  length s = 131 ->
  exists c0 c1 c2,
    length_line (length s) :: chunk_lines 0 (chunks s) =
    [lit "Length: 131"; lit "Chunk 0: " ++ c0; lit "Chunk 1: " ++ c1;
     lit "Chunk 2: " ++ c2] /\
    length c0 = 50 /\ length c1 = 50 /\ length c2 = 31 /\
    c0 ++ c1 ++ c2 = s.
Proof.
  intros H. exists (firstn 50 s), (firstn 50 (skipn 50 s)), (skipn 100 s).
  rewrite (chunks_131 s H), H.
  split; [reflexivity|].
  rewrite !length_firstn, !length_skipn, H.
  repeat split.
  change (skipn 100 s) with (skipn (50 + 50) s).
  rewrite <- skipn_skipn, (firstn_skipn 50 (skipn 50 s)).
  apply firstn_skipn.
Qed.

(** A run on a password the codec accepts. *)
Lemma text_run (prog password : str) (rest : list str) (w : world) :
  unicode_text password = true ->
  exists pw w1 w',
    UTF8.encode password = Ok pw /\
    Script.derive password w = (Ok (full_hash_of w pw), w1) /\
    Script.main (command_line prog (password :: rest)) w = (Ok tt, w') /\
    printed w w' =
    length_line (length (full_hash_of w pw))
    :: chunk_lines 0 (chunks (full_hash_of w pw)).
Proof.
  intros Htext. destruct (encode_text _ Htext) as [pw Hpw].
  exists pw. do 2 eexists.
  split; [exact Hpw|].
  split; [exact (derive_run password w pw Hpw)|].
  split; [exact (main_success prog password rest w pw Hpw)|].
  apply printed_app.
Qed.

(** C3. The chunk lines carry, under the indices 0, 1, 2, ..., pieces
    whose concatenation in that order is the full hash string; every
    piece but the last has 50 characters, and there are
    [ceil (length / 50)] pieces. *)
Theorem chunks_reproduce_full_hash
    (prog password : str) (rest : list str) (w : world) :
  unicode_text password = true ->
  exists full cs w1 w',
    Script.derive password w = (Ok full, w1) /\
    Script.main (command_line prog (password :: rest)) w = (Ok tt, w') /\
    printed w w' = length_line (length full) :: chunk_lines 0 cs /\
    concat cs = full /\
    (forall k, S k < length cs -> length (nth k cs []) = 50) /\
    length cs = ceil_div (length full) 50.
Proof.
  intros Htext.
  destruct (text_run prog password rest w Htext)
    as (pw & w1 & w' & _ & Hderive & Hmain & Hout).
  exists (full_hash_of w pw), (chunks (full_hash_of w pw)), w1, w'.
  split; [exact Hderive|]. split; [exact Hmain|]. split; [exact Hout|].
  split; [apply chunks_cover|].
  split; [apply chunks_full_size|apply chunks_count].
Qed.

Lemma chunks_reproduce_full_hash_witness :
  unicode_text sample_password = true /\
  exists full cs w1 w',
    Script.derive sample_password (fresh_world zeros) = (Ok full, w1) /\
    Script.main (command_line sample_prog (sample_password :: []))
      (fresh_world zeros) = (Ok tt, w') /\
    printed (fresh_world zeros) w' =
      length_line (length full) :: chunk_lines 0 cs /\
    concat cs = full /\
    (forall k, S k < length cs -> length (nth k cs []) = 50) /\
    length cs = ceil_div (length full) 50.
Proof.
  split; [reflexivity|].
  apply (chunks_reproduce_full_hash sample_prog sample_password []
           (fresh_world zeros)).
  reflexivity.
Defined.

Lemma format_iterations (rest : str) :
  lit "$pbkdf2-sha512$310000$" ++ rest =
  lit "$pbkdf2-sha512$" ++ lit "310000" ++ lit "$" ++ rest.
Proof. reflexivity. Qed.

(** C4. The full hash string matches
    [^\$pbkdf2-sha512\$310000\$[A-Za-z0-9+/]+\$[A-Za-z0-9+/]+$]: its
    iteration field is the digits 310000, its salt segment has 22
    characters and its hash segment 86, all of them base64 characters. *)
Theorem full_hash_matches_regex (password : str) (w : world) :
  unicode_text password = true ->
  exists full seg_salt seg_hash w1,
    Script.derive password w = (Ok full, w1) /\
    matches hash_regex full /\
    full = lit "$pbkdf2-sha512$" ++ lit "310000" ++ lit "$"
           ++ seg_salt ++ lit "$" ++ seg_hash /\
    nth 2 (split_on dollar full) [] = lit "310000" /\
    length seg_salt = 22 /\
    length seg_hash = 86 /\
    Forall (fun c => b64_char c = true) seg_salt /\
    Forall (fun c => b64_char c = true) seg_hash.
Proof.
  intros Htext. destruct (encode_text _ Htext) as [pw Hpw].
  pose proof (next_bytes_length w 16) as Hs.
  pose proof (derived_key_64 pw (next_bytes w 16)) as Hd.
  exists (full_hash_of w pw), (b64_nopad (next_bytes w 16)),
    (b64_nopad (derived_key pw (next_bytes w 16))).
  eexists. split; [exact (derive_run password w pw Hpw)|].
  split.
  { rewrite hash_string_unfold. apply format_matches.
    - apply b64_nopad_class.
    - apply b64_nopad_class.
    - apply b64_nopad_nonempty. exact (nonempty_of_length _ _ Hs).
    - apply b64_nopad_nonempty. exact (nonempty_of_length _ _ Hd). }
  split; [rewrite hash_string_unfold; apply format_iterations|].
  split; [rewrite hash_string_fields; reflexivity|].
  split; [rewrite b64_nopad_length, Hs; reflexivity|].
  split; [rewrite b64_nopad_length, Hd; reflexivity|].
  split; apply b64_nopad_class.
Qed.

Lemma full_hash_matches_regex_witness :
  unicode_text sample_password = true /\
  exists full seg_salt seg_hash w1,
    Script.derive sample_password (fresh_world counting) = (Ok full, w1) /\
    matches hash_regex full /\
    full = lit "$pbkdf2-sha512$" ++ lit "310000" ++ lit "$"
           ++ seg_salt ++ lit "$" ++ seg_hash /\
    nth 2 (split_on dollar full) [] = lit "310000" /\
    length seg_salt = 22 /\
    length seg_hash = 86 /\
    Forall (fun c => b64_char c = true) seg_salt /\
    Forall (fun c => b64_char c = true) seg_hash.
Proof.
  split; [reflexivity|].
  apply (full_hash_matches_regex sample_password (fresh_world counting)).
  reflexivity.
Defined.

Lemma length_line_number (m : nat) (n : int) (rest : list str) :
  hd_error (length_line m :: rest)
  = Some (lit "Length: " ++ Py.str_of_int n) ->
  n = Z.of_nat m.
Proof.
  cbn [hd_error]. unfold length_line. intros E.
  assert (E' : lit "Length: " ++ Py.str_of_int (Z.of_nat m)
               = lit "Length: " ++ Py.str_of_int n) by congruence.
  apply app_inv_head in E'. symmetry. now apply str_of_int_inj.
Qed.

(** C6. The integer on the [Length:] line is the number of characters
    of the full hash string, which is also the number of characters of
    the printed chunks taken together. *)
Theorem length_line_shows_length
    (prog password : str) (rest : list str) (w : world) :
  unicode_text password = true ->
  exists full cs w1 w',
    Script.derive password w = (Ok full, w1) /\
    Script.main (command_line prog (password :: rest)) w = (Ok tt, w') /\
    printed w w' =
      (lit "Length: " ++ Py.str_of_int (Z.of_nat (length full)))
      :: chunk_lines 0 cs /\
    concat cs = full /\
    forall n : int,
      hd_error (printed w w') = Some (lit "Length: " ++ Py.str_of_int n) ->
      n = Z.of_nat (length full) /\ n = Z.of_nat (length (concat cs)).
Proof.
  intros Htext.
  destruct (text_run prog password rest w Htext)
    as (pw & w1 & w' & _ & Hderive & Hmain & Hout).
  exists (full_hash_of w pw), (chunks (full_hash_of w pw)), w1, w'.
  split; [exact Hderive|]. split; [exact Hmain|]. split; [exact Hout|].
  split; [apply chunks_cover|].
  intros n Hn. rewrite Hout in Hn. apply length_line_number in Hn.
  rewrite chunks_cover. now split.
Qed.

Lemma length_line_shows_length_witness :
  unicode_text sample_password = true /\
  exists full cs w1 w',
    Script.derive sample_password (fresh_world zeros) = (Ok full, w1) /\
    Script.main (command_line sample_prog (sample_password :: []))
      (fresh_world zeros) = (Ok tt, w') /\
    printed (fresh_world zeros) w' =
      (lit "Length: " ++ Py.str_of_int (Z.of_nat (length full)))
      :: chunk_lines 0 cs /\
    concat cs = full /\
    forall n : int,
      hd_error (printed (fresh_world zeros) w')
      = Some (lit "Length: " ++ Py.str_of_int n) ->
      n = Z.of_nat (length full) /\ n = Z.of_nat (length (concat cs)).
Proof.
  split; [reflexivity|].
  apply (length_line_shows_length sample_prog sample_password []
           (fresh_world zeros)).
  reflexivity.
Defined.

(** C7. With the password fixed, two different 16-byte salts give two
    different full hash strings. *)
Theorem distinct_salts_give_distinct_hashes
    (password : str) (w1 w2 : world) (salt1 salt2 : bytes) :
  unicode_text password = true ->
  next_bytes w1 16 = salt1 ->
  next_bytes w2 16 = salt2 ->
  salt1 <> salt2 ->
  exists full1 full2 w1' w2',
    Script.derive password w1 = (Ok full1, w1') /\
    Script.derive password w2 = (Ok full2, w2') /\
    full1 <> full2.
Proof.
  intros Htext H1 H2 Hne. destruct (encode_text _ Htext) as [pw Hpw].
  exists (full_hash_of w1 pw), (full_hash_of w2 pw). do 2 eexists.
  split; [exact (derive_run password w1 pw Hpw)|].
  split; [exact (derive_run password w2 pw Hpw)|].
  intros E. apply hash_string_inj in E. destruct E as [E _].
  apply Hne. now rewrite <- H1, <- H2.
Qed.

Lemma distinct_salts_give_distinct_hashes_witness :
  unicode_text sample_password = true /\
  next_bytes (fresh_world zeros) 16 = repeat x00 16 /\
  next_bytes (fresh_world counting) 16 = sample_salt /\
  repeat x00 16 <> sample_salt /\
  exists full1 full2 w1' w2',
    Script.derive sample_password (fresh_world zeros) = (Ok full1, w1') /\
    Script.derive sample_password (fresh_world counting) = (Ok full2, w2') /\
    full1 <> full2.
Proof.
  split; [reflexivity|]. split; [reflexivity|]. split; [reflexivity|].
  split; [discriminate|].
  apply (distinct_salts_give_distinct_hashes sample_password
           (fresh_world zeros) (fresh_world counting)
           (repeat x00 16) sample_salt);
    [reflexivity|reflexivity|reflexivity|discriminate].
Defined.

(** C8. When the password on the command line is text the codec
    accepts, no step after the argument check fails: a run with a
    password ends normally, with status 0, having printed the length
    line and every chunk line; a run without one ends in the argument
    check, which is the only error there is. *)
Theorem only_the_argument_check_fails (argv : list str) (w : world) :
  password_is_text argv = true ->
  match argv with
  | prog :: password :: rest =>
      exists full w1 w',
        Script.derive password w = (Ok full, w1) /\
        Script.main argv w = (Ok tt, w') /\
        exit_status (fst (Script.main argv w)) = 0%Z /\
        printed w w' =
          length_line (length full) :: chunk_lines 0 (chunks full)
  | _ => fst (Script.main argv w) = Raise (SystemExit 1)
  end.
Proof.
  destruct argv as [|prog [|password rest]]; intros Htext.
  - now rewrite main_usage by (cbn; lia).
  - now rewrite main_usage by (cbn; lia).
  - destruct (text_run prog password rest w Htext)
      as (pw & w1 & w' & _ & Hderive & Hmain & Hout).
    unfold command_line in Hmain.
    exists (full_hash_of w pw), w1, w'.
    split; [exact Hderive|]. split; [exact Hmain|].
    split; [now rewrite Hmain|exact Hout].
Qed.

Lemma only_the_argument_check_fails_witness :
  password_is_text [sample_prog; sample_password] = true /\
  exists full w1 w',
    Script.derive sample_password (fresh_world zeros) = (Ok full, w1) /\
    Script.main [sample_prog; sample_password] (fresh_world zeros)
      = (Ok tt, w') /\
    exit_status
      (fst (Script.main [sample_prog; sample_password] (fresh_world zeros)))
      = 0%Z /\
    printed (fresh_world zeros) w' =
      length_line (length full) :: chunk_lines 0 (chunks full).
Proof.
  split; [reflexivity|].
  apply (only_the_argument_check_fails [sample_prog; sample_password]
           (fresh_world zeros)).
  reflexivity.
Defined.

(** C9. The full hash string has 131 characters: the length line reads
    131 and three chunk lines follow, chunks 0 and 1 with 50 characters
    each and chunk 2 with 31. *)
Theorem output_is_131_characters_in_three_chunks
    (prog password : str) (rest : list str) (w : world) :
  unicode_text password = true ->
  exists full c0 c1 c2 w1 w',
    Script.derive password w = (Ok full, w1) /\
    length full = 131 /\
    Script.main (command_line prog (password :: rest)) w = (Ok tt, w') /\
    printed w w' =
      [lit "Length: 131"; lit "Chunk 0: " ++ c0; lit "Chunk 1: " ++ c1;
       lit "Chunk 2: " ++ c2] /\
    length c0 = 50 /\ length c1 = 50 /\ length c2 = 31 /\
    c0 ++ c1 ++ c2 = full.
Proof.
  intros Htext.
  destruct (text_run prog password rest w Htext)
    as (pw & w1 & w' & _ & Hderive & Hmain & Hout).
  pose proof (full_hash_length w pw) as Hlen.
  destruct (report_131 (full_hash_of w pw) Hlen)
    as (c0 & c1 & c2 & Hlines & H0 & H1 & H2 & Hcat).
  exists (full_hash_of w pw), c0, c1, c2, w1, w'.
  split; [exact Hderive|]. split; [exact Hlen|]. split; [exact Hmain|].
  split; [now rewrite Hout|]. auto.
Qed.

Lemma output_is_131_characters_in_three_chunks_witness :
  unicode_text sample_password = true /\
  exists full c0 c1 c2 w1 w',
    Script.derive sample_password (fresh_world counting) = (Ok full, w1) /\
    length full = 131 /\
    Script.main (command_line sample_prog (sample_password :: []))
      (fresh_world counting) = (Ok tt, w') /\
    printed (fresh_world counting) w' =
      [lit "Length: 131"; lit "Chunk 0: " ++ c0; lit "Chunk 1: " ++ c1;
       lit "Chunk 2: " ++ c2] /\
    length c0 = 50 /\ length c1 = 50 /\ length c2 = 31 /\
    c0 ++ c1 ++ c2 = full.
Proof.
  split; [reflexivity|].
  apply (output_is_131_characters_in_three_chunks sample_prog
           sample_password [] (fresh_world counting)).
  reflexivity.
Defined.

(** C10. Neither base64 segment contains [$] or [=]; the full hash
    string therefore has exactly four [$], and splitting it on [$] gives
    the five fields: the empty prefix, [pbkdf2-sha512], [310000], the
    salt segment and the hash segment. *)
Theorem segments_hold_no_delimiter (password : str) (w : world) :
  unicode_text password = true ->
  exists full seg_salt seg_hash w1,
    Script.derive password w = (Ok full, w1) /\
    full = lit "$pbkdf2-sha512$310000$" ++ seg_salt ++ lit "$" ++ seg_hash /\
    seg_salt = b64_nopad (next_bytes w 16) /\
    ~ In dollar seg_salt /\ ~ In equals_sign seg_salt /\
    ~ In dollar seg_hash /\ ~ In equals_sign seg_hash /\
    occurrences dollar full = 4 /\
    split_on dollar full =
      [[]; lit "pbkdf2-sha512"; lit "310000"; seg_salt; seg_hash].
Proof.
  intros Htext. destruct (encode_text _ Htext) as [pw Hpw].
  exists (full_hash_of w pw), (b64_nopad (next_bytes w 16)),
    (b64_nopad (derived_key pw (next_bytes w 16))).
  eexists. split; [exact (derive_run password w pw Hpw)|].
  split; [apply hash_string_unfold|]. split; [reflexivity|].
  repeat (split; [apply class_lacks; [reflexivity|apply b64_nopad_class]|]).
  split; [|apply hash_string_fields].
  rewrite hash_string_unfold. apply format_dollars; apply b64_nopad_class.
Qed.

Lemma segments_hold_no_delimiter_witness :
  unicode_text sample_password = true /\
  exists full seg_salt seg_hash w1,
    Script.derive sample_password (fresh_world counting) = (Ok full, w1) /\
    full = lit "$pbkdf2-sha512$310000$" ++ seg_salt ++ lit "$" ++ seg_hash /\
    seg_salt = b64_nopad (next_bytes (fresh_world counting) 16) /\
    ~ In dollar seg_salt /\ ~ In equals_sign seg_salt /\
    ~ In dollar seg_hash /\ ~ In equals_sign seg_hash /\
    occurrences dollar full = 4 /\
    split_on dollar full =
      [[]; lit "pbkdf2-sha512"; lit "310000"; seg_salt; seg_hash].
Proof.
  split; [reflexivity|].
  apply (segments_hold_no_delimiter sample_password (fresh_world counting)).
  reflexivity.
Defined.

(** * Further properties of the script *)

(** ** The password reaches the key derivation unchanged *)

Lemma to_N_byte_of_N (x : N) : (x < 256)%N -> Byte.to_N (byte_of_N x) = x.
Proof.
  intros H. unfold byte_of_N.
  change 255%N with (N.ones 8). rewrite N.land_ones, N.mod_small by exact H.
  destruct (Byte.of_N x) as [b|] eqn:E.
  - now apply Byte.to_of_N.
  - apply Byte.of_N_None_iff in E. lia.
Qed.

Ltac divmod_lia :=
  repeat match goal with
         | |- context [(?x / ?d)%N] => euclid x d
         | |- context [(?x mod ?d)%N] => euclid x d
         | _ : context [(?x / ?d)%N] |- _ => euclid x d
         | _ : context [(?x mod ?d)%N] |- _ => euclid x d
         end;
  lia.

(** Settle one comparison of the decoder from what is known of the
    code point. *)
Ltac settle_test :=
  match goal with
  | |- context [(?a =? ?b)%N] =>
      destruct (N.eqb_spec a b); try (exfalso; divmod_lia)
  | |- context [(?a <? ?b)%N] =>
      destruct (N.ltb_spec a b); try (exfalso; divmod_lia)
  | |- context [(?a <=? ?b)%N] =>
      destruct (N.leb_spec a b); try (exfalso; divmod_lia)
  end; cbn [andb orb].

Lemma Ok_inj {A : Type} (a b : A) : Ok a = Ok b -> a = b.
Proof. congruence. Qed.

Lemma decode_point (c : N) (bs rest : bytes) (fuel : nat) (s : str) :
  UTF8.encode_point c = Ok bs ->
  UTF8.decode_from fuel (map Byte.to_N rest) = Ok s ->
  UTF8.decode_from (S fuel) (map Byte.to_N (bs ++ rest)) = Ok (c :: s).
Proof.
  unfold UTF8.encode_point, UTF8.cont. intros Hc Hrest.
  destruct (N.ltb_spec c 0x80).
  { apply Ok_inj in Hc. subst bs. cbn [app map].
    rewrite to_N_byte_of_N by lia. cbn [UTF8.decode_from].
    destruct (N.ltb_spec c 0x80); [|lia]. now rewrite Hrest. }
  destruct (N.ltb_spec c 0x800).
  { apply Ok_inj in Hc. subst bs. cbn [app map].
    rewrite !to_N_byte_of_N by divmod_lia.
    cbn [UTF8.decode_from]. unfold UTF8.between, UTF8.is_cont.
    repeat settle_test. rewrite Hrest. cbn [rbind].
    do 2 f_equal. divmod_lia. }
  destruct (N.ltb_spec c 0x10000).
  { destruct (N.leb_spec 0xD800 c), (N.leb_spec c 0xDFFF);
      cbn [andb] in Hc; try discriminate Hc;
      apply Ok_inj in Hc; subst bs; cbn [app map];
      rewrite !to_N_byte_of_N by divmod_lia;
      cbn [UTF8.decode_from]; unfold UTF8.between, UTF8.is_cont;
      repeat settle_test; rewrite Hrest; cbn [rbind];
      do 2 f_equal; divmod_lia. }
  destruct (N.ltb_spec c 0x110000); [|discriminate Hc].
  apply Ok_inj in Hc. subst bs. cbn [app map].
  rewrite !to_N_byte_of_N by divmod_lia.
  cbn [UTF8.decode_from]. unfold UTF8.between, UTF8.is_cont.
  repeat settle_test; rewrite Hrest; cbn [rbind];
    do 2 f_equal; divmod_lia.
Qed.

Lemma encode_point_nonempty (c : N) (bs : bytes) :
  UTF8.encode_point c = Ok bs -> 1 <= length bs.
Proof.
  unfold UTF8.encode_point.
  repeat match goal with
         | |- context [if ?b then _ else _] => destruct b
         end;
    intros E; try discriminate E; apply Ok_inj in E; subst bs; cbn; lia.
Qed.

Lemma decode_from_encode (s : str) :
  forall (bs : bytes) (fuel : nat),
    UTF8.encode s = Ok bs -> length bs <= fuel ->
    UTF8.decode_from fuel (map Byte.to_N bs) = Ok s.
Proof.
  induction s as [|c s IH]; intros bs fuel; cbn [UTF8.encode].
  - intros E _. apply Ok_inj in E. subst bs. now destruct fuel.
  - destruct (UTF8.encode_point c) as [b1|e] eqn:Ec; [|discriminate].
    destruct (UTF8.encode s) as [rest|e] eqn:Es; [|discriminate].
    cbn [rbind]. intros E Hlen. apply Ok_inj in E. subst bs.
    pose proof (encode_point_nonempty c b1 Ec) as Hb1.
    rewrite length_app in Hlen.
    destruct fuel as [|fuel]; [lia|].
    apply decode_point; [exact Ec|]. apply IH; [reflexivity|lia].
Qed.

(** X1. [password.encode()] loses nothing: decoding the octets handed to
    the key derivation gives the password back, so two different
    passwords never reach the key derivation as the same octets. *)
Theorem password_encoding_round_trip (p1 p2 : str) (pw : bytes) :
  UTF8.encode p1 = Ok pw ->
  UTF8.decode pw = Ok p1 /\ (UTF8.encode p2 = Ok pw -> p2 = p1).
Proof.
  intros E1.
  assert (D1 : UTF8.decode pw = Ok p1)
    by (apply decode_from_encode; [exact E1|lia]).
  split; [exact D1|]. intros E2.
  assert (D2 : UTF8.decode pw = Ok p2)
    by (apply decode_from_encode; [exact E2|lia]).
  rewrite D1 in D2. now apply Ok_inj in D2.
Qed.

Lemma password_encoding_round_trip_witness :
  UTF8.encode sample_password = Ok (blit "hunter2") /\
  UTF8.decode (blit "hunter2") = Ok sample_password /\
  (UTF8.encode sample_password = Ok (blit "hunter2") ->
   sample_password = sample_password).
Proof.
  split; [reflexivity|].
  apply (password_encoding_round_trip sample_password sample_password
           (blit "hunter2")).
  reflexivity.
Defined.

(** X2. A password the codec refuses (a lone surrogate) ends the run
    with an uncaught [UnicodeEncodeError], exit status 1: by then the
    16 salt octets have been drawn, but nothing has been printed and
    [hashlib.pbkdf2_hmac] has not been called. *)
Theorem refused_password_aborts
    (prog password : str) (rest : list str) (w : world) :
  unicode_text password = false ->
  exists w',
    Script.main (command_line prog (password :: rest)) w
      = (Raise UnicodeEncodeError, w') /\
    exit_status (fst (Script.main (command_line prog (password :: rest)) w))
      = 1%Z /\
    printed w w' = [] /\
    drawn w' = drawn w + 16 /\
    kdf_calls w' = kdf_calls w.
Proof.
  intros H. unfold command_line.
  rewrite (main_bad_password prog password rest w H).
  eexists. split; [reflexivity|]. cbn [fst]. split; [reflexivity|].
  unfold printed. cbn [stdout drawn kdf_calls].
  rewrite skipn_all. auto.
Qed.

Lemma refused_password_aborts_witness :
  unicode_text lone_surrogate = false /\
  exists w',
    Script.main (command_line sample_prog (lone_surrogate :: []))
      (fresh_world zeros) = (Raise UnicodeEncodeError, w') /\
    exit_status
      (fst (Script.main (command_line sample_prog (lone_surrogate :: []))
              (fresh_world zeros))) = 1%Z /\
    printed (fresh_world zeros) w' = [] /\
    drawn w' = drawn (fresh_world zeros) + 16 /\
    kdf_calls w' = kdf_calls (fresh_world zeros).
Proof.
  split; [reflexivity|].
  apply (refused_password_aborts sample_prog lone_surrogate []
           (fresh_world zeros)).
  reflexivity.
Defined.

Lemma chunk_lines_length (k : nat) (cs : list str) :
  length (chunk_lines k cs) = length cs.
Proof.
  revert k. induction cs as [|c cs IH]; intros k; cbn; [|rewrite IH];
    reflexivity.
Qed.

(** X3. A run that gets past the argument check draws exactly 16
    octets from the random source, calls [hashlib.pbkdf2_hmac] exactly
    once, keeps what was on standard output before it, adds four lines
    to it, and never prints the usage message. *)
Theorem successful_run_effects
    (prog password : str) (rest : list str) (w : world) :
  unicode_text password = true ->
  exists w',
    Script.main (command_line prog (password :: rest)) w = (Ok tt, w') /\
    drawn w' = drawn w + 16 /\
    kdf_calls w' = S (kdf_calls w) /\
    entropy w' = entropy w /\
    firstn (length (stdout w)) (stdout w') = stdout w /\
    length (printed w w') = 4 /\
    ~ In Script.usage (printed w w').
Proof.
  intros Htext. destruct (encode_text _ Htext) as [pw Hpw].
  unfold command_line. rewrite (main_success prog password rest w pw Hpw).
  eexists. split; [reflexivity|].
  cbn [stdout drawn kdf_calls entropy]. rewrite printed_app.
  repeat split.
  - rewrite firstn_app, firstn_all, Nat.sub_diag. cbn [firstn].
    apply app_nil_r.
  - cbn [length]. rewrite chunk_lines_length, chunks_count.
    now rewrite (full_hash_length w pw).
  - apply usage_not_printed.
Qed.

Lemma successful_run_effects_witness :
  unicode_text sample_password = true /\
  exists w',
    Script.main (command_line sample_prog (sample_password :: []))
      (fresh_world counting) = (Ok tt, w') /\
    drawn w' = drawn (fresh_world counting) + 16 /\
    kdf_calls w' = S (kdf_calls (fresh_world counting)) /\
    entropy w' = entropy (fresh_world counting) /\
    firstn (length (stdout (fresh_world counting))) (stdout w')
      = stdout (fresh_world counting) /\
    length (printed (fresh_world counting) w') = 4 /\
    ~ In Script.usage (printed (fresh_world counting) w').
Proof.
  split; [reflexivity|].
  apply (successful_run_effects sample_prog sample_password []
           (fresh_world counting)).
  reflexivity.
Defined.

(** ** The chunk loop on any string *)

Lemma chunks_from_sizes (count : nat) (s : str) :
  length s <= 50 * count -> 50 * count < length s + 50 ->
  Forall (fun c => 1 <= length c <= 50) (chunks_from count 50 s).
Proof.
  revert s. induction count as [|count IH]; intros s Hle Hlt;
    cbn [chunks_from]; constructor.
  - rewrite length_firstn. lia.
  - apply IH; rewrite length_skipn; lia.
Qed.

(** X4. Lines 22 to 24 work on a string of any length: they never fail,
    print the length line and then [ceil (len / 50)] chunk lines whose
    pieces, each of 1 to 50 characters, make up the string; for the
    empty string the length line [Length: 0] is all that is printed. *)
Theorem report_any_string (s : str) (w : world) :
  exists cs w',
    Script.report s w = (Ok tt, w') /\
    printed w w' = length_line (length s) :: chunk_lines 0 cs /\
    concat cs = s /\
    Forall (fun c => 1 <= length c <= 50) cs /\
    length cs = ceil_div (length s) 50 /\
    (s = [] -> printed w w' = [lit "Length: 0"]) /\
    drawn w' = drawn w /\ kdf_calls w' = kdf_calls w.
Proof.
  exists (chunks s). eexists. split; [apply report_run|].
  rewrite printed_app. cbn [drawn kdf_calls].
  split; [reflexivity|]. split; [apply chunks_cover|].
  split; [apply chunks_from_sizes; apply ceil_div_50|].
  split; [apply chunks_count|].
  split; [|auto]. intros ->. reflexivity.
Qed.

(** ** The assembled string and what it was made from *)

(** X5. The full hash string stands for exactly one salt and one
    derived key: two runs, whatever their passwords, assemble the same
    string exactly when they drew the same salt and derived the same
    key. *)
Theorem full_hash_determines_salt_and_key
    (p1 p2 : str) (w1 w2 : world) :
  unicode_text p1 = true ->
  unicode_text p2 = true ->
  exists pw1 pw2 full1 full2 w1' w2',
    UTF8.encode p1 = Ok pw1 /\
    UTF8.encode p2 = Ok pw2 /\
    Script.derive p1 w1 = (Ok full1, w1') /\
    Script.derive p2 w2 = (Ok full2, w2') /\
    (full1 = full2 <->
     next_bytes w1 16 = next_bytes w2 16 /\
     derived_key pw1 (next_bytes w1 16) = derived_key pw2 (next_bytes w2 16)).
Proof.
  intros H1 H2.
  destruct (encode_text _ H1) as [pw1 Hpw1].
  destruct (encode_text _ H2) as [pw2 Hpw2].
  exists pw1, pw2, (full_hash_of w1 pw1), (full_hash_of w2 pw2).
  do 2 eexists.
  split; [exact Hpw1|]. split; [exact Hpw2|].
  split; [exact (derive_run p1 w1 pw1 Hpw1)|].
  split; [exact (derive_run p2 w2 pw2 Hpw2)|].
  split.
  - apply hash_string_inj.
  - intros [Es Ed]. rewrite Ed, Es. reflexivity.
Qed.

Lemma full_hash_determines_salt_and_key_witness :
  unicode_text sample_password = true /\
  unicode_text (lit "correct horse") = true /\
  exists pw1 pw2 full1 full2 w1' w2',
    UTF8.encode sample_password = Ok pw1 /\
    UTF8.encode (lit "correct horse") = Ok pw2 /\
    Script.derive sample_password (fresh_world zeros) = (Ok full1, w1') /\
    Script.derive (lit "correct horse") (fresh_world counting)
      = (Ok full2, w2') /\
    (full1 = full2 <->
     next_bytes (fresh_world zeros) 16 = next_bytes (fresh_world counting) 16
     /\ derived_key pw1 (next_bytes (fresh_world zeros) 16)
        = derived_key pw2 (next_bytes (fresh_world counting) 16)).
Proof.
  split; [reflexivity|]. split; [reflexivity|].
  apply (full_hash_determines_salt_and_key sample_password
           (lit "correct horse") (fresh_world zeros) (fresh_world counting));
    reflexivity.
Defined.

Lemma unpadded_run (x : bytes) : unpadded x = Ok (b64_nopad x).
Proof. unfold unpadded. rewrite b64_decode. reflexivity. Qed.

(** X6. For octets of any number, [b64encode(x).decode().rstrip('=')]
    never fails and gives [ceil (4 n / 3)] characters, all of the base64
    alphabet: the stripping removes every [=] and nothing else. *)
Theorem unpadded_segment_shape (x : bytes) :
  exists seg,
    unpadded x = Ok seg /\
    Forall (fun c => b64_char c = true) seg /\
    ~ In equals_sign seg /\
    length seg = (4 * length x + 2) / 3 /\
    seg ++ repeat equals_sign (Base64.padding (length x))
      = ascii_str (Base64.b64encode x).
Proof.
  exists (b64_nopad x). split; [apply unpadded_run|].
  split; [apply b64_nopad_class|].
  split; [apply class_lacks; [reflexivity|apply b64_nopad_class]|].
  split; [apply b64_nopad_length|].
  rewrite b64_nopad_sextets, b64encode_sextets. unfold ascii_str.
  rewrite map_app. f_equal.
  generalize (Base64.padding (length x)) as k.
  induction k as [|k IH]; [reflexivity|]. cbn [repeat map]. now rewrite IH.
Qed.

(** X7. Stripping the padding loses nothing: octet strings with the
    same unpadded encoding are the same, whatever their lengths. *)
Theorem unpadded_segment_injective (x y : bytes) (seg : str) :
  unpadded x = Ok seg -> unpadded y = Ok seg -> x = y.
Proof.
  rewrite !unpadded_run. intros Ex Ey.
  apply Ok_inj in Ex, Ey. apply b64_nopad_inj. congruence.
Qed.

Lemma unpadded_segment_injective_witness :
  unpadded sample_salt = Ok (lit "AAECAwQFBgcICQoLDA0ODw") /\
  unpadded sample_salt = Ok (lit "AAECAwQFBgcICQoLDA0ODw") /\
  sample_salt = sample_salt.
Proof.
  split; [reflexivity|]. split; [reflexivity|].
  apply (unpadded_segment_injective sample_salt sample_salt
           (lit "AAECAwQFBgcICQoLDA0ODw")); reflexivity.
Defined.

(** ** What reaches the terminal *)

Lemma b64_char_printable (c : N) : b64_char c = true -> printable c = true.
Proof.
  unfold b64_char, printable.
  rewrite !orb_true_iff, !andb_true_iff, !N.leb_le, !N.eqb_eq, N.ltb_lt. lia.
Qed.

Lemma b64_nopad_printable (x : bytes) :
  forallb printable (b64_nopad x) = true.
Proof.
  apply forallb_forall. intros c Hc. apply b64_char_printable.
  pose proof (b64_nopad_class x) as H. rewrite Forall_forall in H. auto.
Qed.

Lemma hash_string_printable (salt dk : bytes) :
  forallb printable (hash_string salt dk) = true.
Proof.
  rewrite hash_string_unfold, !forallb_app, !b64_nopad_printable.
  reflexivity.
Qed.

Lemma report_131_printable (s : str) :
  length s = 131 -> forallb printable s = true ->
  Forall (fun line => forallb printable line = true)
         (length_line (length s) :: chunk_lines 0 (chunks s)).
Proof.
  intros Hlen Hs.
  destruct (report_131 s Hlen) as (c0 & c1 & c2 & -> & _ & _ & _ & Hcat).
  rewrite <- Hcat, !forallb_app, !andb_true_iff in Hs.
  destruct Hs as (H0 & H1 & H2).
  repeat constructor; rewrite forallb_app; cbn [andb];
    first [rewrite H0 | rewrite H1 | rewrite H2]; reflexivity.
Qed.

(** X8. Everything a successful run prints is printable ASCII: the
    length line and every chunk line consist of characters from
    U+0020 to U+007E only, whatever the password. *)
Theorem printed_lines_are_printable
    (prog password : str) (rest : list str) (w : world) :
  unicode_text password = true ->
  exists w',
    Script.main (command_line prog (password :: rest)) w = (Ok tt, w') /\
    printed w w' <> [] /\
    Forall (fun line => forallb printable line = true) (printed w w').
Proof.
  intros Htext.
  destruct (text_run prog password rest w Htext)
    as (pw & w1 & w' & _ & _ & Hmain & Hout).
  exists w'. split; [exact Hmain|]. rewrite Hout.
  split; [discriminate|].
  apply report_131_printable.
  - apply full_hash_length.
  - apply hash_string_printable.
Qed.

Lemma printed_lines_are_printable_witness :
  unicode_text sample_password = true /\
  exists w',
    Script.main (command_line sample_prog (sample_password :: []))
      (fresh_world counting) = (Ok tt, w') /\
    printed (fresh_world counting) w' <> [] /\
    Forall (fun line => forallb printable line = true)
           (printed (fresh_world counting) w').
Proof.
  split; [reflexivity|].
  apply (printed_lines_are_printable sample_prog sample_password []
           (fresh_world counting)).
  reflexivity.
Defined.
